(** * ProtoStackBase: the reliability/encapsulation orchestrator of
      openvpn/ssl/protostack.hpp, as a shallow embedding.

    The class is a C++ template over its collaborators (SSL session, PACKET)
    and calls seven virtual methods of a derived class.  The embedding keeps
    that shape: the collaborators are the fields of a type class [World], the
    virtual methods are a record [Callbacks] of state transformers, and every
    member function is a computation in a state-and-exception monad whose
    state is the object itself.  A thrown C++ exception keeps the state it was
    thrown in, as in C++ (no roll-back).  Loops take fuel. *)

From Stdlib Require Import ZArith List Bool Lia.
Import ListNotations.
Local Open Scope Z_scope.

(** ProtoStats::SSL_ERROR and ProtoStats::ENCAPSULATION_ERROR. *)
Inductive ErrorTag : Type := SSL_ERROR | ENCAPSULATION_ERROR.

(** Frame::READ_SSL_CLEARTEXT and Frame::WRITE_ACK_STANDALONE. *)
Inductive FrameContext : Type := READ_SSL_CLEARTEXT | WRITE_ACK_STANDALONE.

(** Result of a call on the SSL object: a value or a thrown exception, with
    the SSL object's state after the call. *)
Inductive SslResult (E S A : Type) : Type :=
| SslRet (a : A) (ssl' : S)
| SslThrow (e : E) (ssl' : S).
Arguments SslRet {E S A} a ssl'.
Arguments SslThrow {E S A} e ssl'.

(** reliable::id_t is an unsigned 32-bit integer. *)
Definition id_t : Type := Z.
Definition id_modulus : Z := 2 ^ 32.
(** [++i] on an id_t. *)
Definition id_succ (i : id_t) : id_t := (i + 1) mod id_modulus.

(** ** The collaborators

    Everything the header includes but does not define: Time, Buffer, Frame,
    ProtoStats, the reliability windows, and the two template parameters.
    Only the operations that protostack.hpp calls are listed.  A C++
    reference [Message&] into the send window is represented by the id under
    which [ref_by_id] finds the message; [rs_put_by_id] is a write through
    such a reference. *)
Class World : Type := {
  exn : Type;                                   (* thrown values *)

  (* openvpn/time/time.hpp *)
  Time : Type;
  Duration : Type;
  Time_infinite : Time;                         (* Time::infinite() *)
  Time_ge : Time -> Time -> bool;               (* operator>= *)
  Time_plus : Time -> Duration -> Time;         (* operator+ *)

  (* openvpn/buffer/buffer.hpp, openvpn/frame/frame.hpp *)
  Buffer : Type;
  Frame : Type;
  Buffer_new : Buffer;                          (* new BufferAllocated() *)
  Buffer_max_size : Buffer -> Z;
  Buffer_set_size : Z -> Buffer -> Buffer;
  Frame_prepare : Frame -> FrameContext -> Buffer -> Buffer;

  (* template parameter PACKET *)
  PACKET : Type;
  PACKET_of_buffer : Buffer -> PACKET;          (* explicit PACKET(const BufferPtr&) *)
  PACKET_is_raw : PACKET -> bool;
  PACKET_buffer_ptr : PACKET -> Buffer;
  PACKET_frame_prepare : Frame -> FrameContext -> PACKET -> PACKET;

  (* template parameter SSL_CONTEXT: the session object SSLContext::SSL *)
  SSL : Type;
  SHOULD_RETRY : Z;                             (* SSLContext::SSL::SHOULD_RETRY *)
  ssl_start_handshake : SSL -> SslResult exn SSL unit;
  ssl_write_cleartext_unbuffered : Buffer -> SSL -> SslResult exn SSL Z;
  ssl_read_ciphertext_ready : SSL -> SslResult exn SSL bool;
  ssl_read_ciphertext : SSL -> SslResult exn SSL Buffer;
  ssl_write_ciphertext : Buffer -> SSL -> SslResult exn SSL unit;
  ssl_write_ciphertext_ready : SSL -> SslResult exn SSL bool;
  (* read_cleartext(data, max_size), given the buffer that owns the data
     area: the size returned and that buffer with the data area written *)
  ssl_read_cleartext : Buffer -> Z -> SSL -> SslResult exn SSL (Z * Buffer);

  (* openvpn/reliable/relsend.hpp *)
  ReliableSend : Type;
  SendMessage : Type;
  msg_id : SendMessage -> id_t;
  msg_packet : SendMessage -> PACKET;
  msg_set_packet : PACKET -> SendMessage -> SendMessage;
  msg_ready_retransmit : Time -> SendMessage -> bool;
  msg_reset_retransmit : Time -> SendMessage -> SendMessage;
  rs_head_id : ReliableSend -> id_t;
  rs_tail_id : ReliableSend -> id_t;
  rs_ref_by_id : id_t -> ReliableSend -> SendMessage;
  rs_put_by_id : id_t -> SendMessage -> ReliableSend -> ReliableSend;
  rs_ready : ReliableSend -> bool;
  (* send(now): the id of the message handed out, and the window after *)
  rs_send : Time -> ReliableSend -> id_t * ReliableSend;
  rs_until_retransmit : Time -> ReliableSend -> Duration;

  (* openvpn/reliable/relrecv.hpp *)
  ReliableRecv : Type;
  rr_ready : ReliableRecv -> bool;
  rr_next_sequenced : ReliableRecv -> PACKET;   (* next_sequenced().packet *)
  rr_advance : ReliableRecv -> ReliableRecv;

  (* openvpn/reliable/relack.hpp *)
  ReliableAck : Type;
  ra_empty : ReliableAck -> bool;

  (* openvpn/log/protostats.hpp *)
  ProtoStats : Type;
  ProtoStats_error : ErrorTag -> ProtoStats -> ProtoStats;

  (* the data members of the derived class *)
  Derived : Type
}.

Section ProtoStack.
Context {W : World}.

(** Ghost record of the virtual calls the base class makes, in order, with
    the value of the argument at the time of the call.  No member function
    reads it. *)
Inductive Event : Type :=
| EvEncapsulate (id : id_t) (pkt : PACKET)
| EvDecapsulate (pkt : PACKET)
| EvGenerateAck (pkt : PACKET)
| EvNetSend (pkt : PACKET)
| EvAppRecv (buf : option Buffer)
| EvRawRecv (pkt : PACKET)
| EvInvalidateCallback.

(** The data members, in the order of declaration; [stats] and [to_app_buf]
    are pointers that may be null, [now] is the time the [TimePtr] points to,
    [derived] stands for the members a derived class adds.  The depth counter
    is an [int] that only ever goes one up and one down again; it is kept as
    an unbounded integer. *)
#[projections(primitive)]
Record ProtoStackBase : Type := mkProtoStack {
  ssl_ : SSL;
  frame_ : Frame;
  up_stack_reentry_level : Z;
  invalidated_ : bool;
  ssl_started_ : bool;
  next_retransmit_ : Time;
  to_app_buf : option Buffer;
  ack_send_buf : PACKET;
  app_write_queue : list Buffer;
  raw_write_queue : list PACKET;
  stats : option ProtoStats;
  now : Time;
  rel_recv : ReliableRecv;
  rel_send : ReliableSend;
  xmit_acks : ReliableAck;
  derived : Derived;
  calls : list Event
}.

Definition set_ssl_ v (s : ProtoStackBase) : ProtoStackBase :=
  mkProtoStack v (frame_ s) (up_stack_reentry_level s) (invalidated_ s) (ssl_started_ s)
  (next_retransmit_ s) (to_app_buf s) (ack_send_buf s) (app_write_queue s)
  (raw_write_queue s) (stats s) (now s) (rel_recv s) (rel_send s) (xmit_acks s) (derived
  s) (calls s).
Definition set_up_stack_reentry_level v (s : ProtoStackBase) : ProtoStackBase :=
  mkProtoStack (ssl_ s) (frame_ s) v (invalidated_ s) (ssl_started_ s) (next_retransmit_
  s) (to_app_buf s) (ack_send_buf s) (app_write_queue s) (raw_write_queue s) (stats s)
  (now s) (rel_recv s) (rel_send s) (xmit_acks s) (derived s) (calls s).
Definition set_invalidated_ v (s : ProtoStackBase) : ProtoStackBase :=
  mkProtoStack (ssl_ s) (frame_ s) (up_stack_reentry_level s) v (ssl_started_ s)
  (next_retransmit_ s) (to_app_buf s) (ack_send_buf s) (app_write_queue s)
  (raw_write_queue s) (stats s) (now s) (rel_recv s) (rel_send s) (xmit_acks s) (derived
  s) (calls s).
Definition set_ssl_started_ v (s : ProtoStackBase) : ProtoStackBase :=
  mkProtoStack (ssl_ s) (frame_ s) (up_stack_reentry_level s) (invalidated_ s) v
  (next_retransmit_ s) (to_app_buf s) (ack_send_buf s) (app_write_queue s)
  (raw_write_queue s) (stats s) (now s) (rel_recv s) (rel_send s) (xmit_acks s) (derived
  s) (calls s).
Definition set_next_retransmit_ v (s : ProtoStackBase) : ProtoStackBase :=
  mkProtoStack (ssl_ s) (frame_ s) (up_stack_reentry_level s) (invalidated_ s)
  (ssl_started_ s) v (to_app_buf s) (ack_send_buf s) (app_write_queue s) (raw_write_queue
  s) (stats s) (now s) (rel_recv s) (rel_send s) (xmit_acks s) (derived s) (calls s).
Definition set_to_app_buf v (s : ProtoStackBase) : ProtoStackBase :=
  mkProtoStack (ssl_ s) (frame_ s) (up_stack_reentry_level s) (invalidated_ s)
  (ssl_started_ s) (next_retransmit_ s) v (ack_send_buf s) (app_write_queue s)
  (raw_write_queue s) (stats s) (now s) (rel_recv s) (rel_send s) (xmit_acks s) (derived
  s) (calls s).
Definition set_ack_send_buf v (s : ProtoStackBase) : ProtoStackBase :=
  mkProtoStack (ssl_ s) (frame_ s) (up_stack_reentry_level s) (invalidated_ s)
  (ssl_started_ s) (next_retransmit_ s) (to_app_buf s) v (app_write_queue s)
  (raw_write_queue s) (stats s) (now s) (rel_recv s) (rel_send s) (xmit_acks s) (derived
  s) (calls s).
Definition set_app_write_queue v (s : ProtoStackBase) : ProtoStackBase :=
  mkProtoStack (ssl_ s) (frame_ s) (up_stack_reentry_level s) (invalidated_ s)
  (ssl_started_ s) (next_retransmit_ s) (to_app_buf s) (ack_send_buf s) v (raw_write_queue
  s) (stats s) (now s) (rel_recv s) (rel_send s) (xmit_acks s) (derived s) (calls s).
Definition set_raw_write_queue v (s : ProtoStackBase) : ProtoStackBase :=
  mkProtoStack (ssl_ s) (frame_ s) (up_stack_reentry_level s) (invalidated_ s)
  (ssl_started_ s) (next_retransmit_ s) (to_app_buf s) (ack_send_buf s) (app_write_queue
  s) v (stats s) (now s) (rel_recv s) (rel_send s) (xmit_acks s) (derived s) (calls s).
Definition set_stats v (s : ProtoStackBase) : ProtoStackBase :=
  mkProtoStack (ssl_ s) (frame_ s) (up_stack_reentry_level s) (invalidated_ s)
  (ssl_started_ s) (next_retransmit_ s) (to_app_buf s) (ack_send_buf s) (app_write_queue
  s) (raw_write_queue s) v (now s) (rel_recv s) (rel_send s) (xmit_acks s) (derived s)
  (calls s).
Definition set_now v (s : ProtoStackBase) : ProtoStackBase :=
  mkProtoStack (ssl_ s) (frame_ s) (up_stack_reentry_level s) (invalidated_ s)
  (ssl_started_ s) (next_retransmit_ s) (to_app_buf s) (ack_send_buf s) (app_write_queue
  s) (raw_write_queue s) (stats s) v (rel_recv s) (rel_send s) (xmit_acks s) (derived s)
  (calls s).
Definition set_rel_recv v (s : ProtoStackBase) : ProtoStackBase :=
  mkProtoStack (ssl_ s) (frame_ s) (up_stack_reentry_level s) (invalidated_ s)
  (ssl_started_ s) (next_retransmit_ s) (to_app_buf s) (ack_send_buf s) (app_write_queue
  s) (raw_write_queue s) (stats s) (now s) v (rel_send s) (xmit_acks s) (derived s) (calls
  s).
Definition set_rel_send v (s : ProtoStackBase) : ProtoStackBase :=
  mkProtoStack (ssl_ s) (frame_ s) (up_stack_reentry_level s) (invalidated_ s)
  (ssl_started_ s) (next_retransmit_ s) (to_app_buf s) (ack_send_buf s) (app_write_queue
  s) (raw_write_queue s) (stats s) (now s) (rel_recv s) v (xmit_acks s) (derived s) (calls
  s).
Definition set_xmit_acks v (s : ProtoStackBase) : ProtoStackBase :=
  mkProtoStack (ssl_ s) (frame_ s) (up_stack_reentry_level s) (invalidated_ s)
  (ssl_started_ s) (next_retransmit_ s) (to_app_buf s) (ack_send_buf s) (app_write_queue
  s) (raw_write_queue s) (stats s) (now s) (rel_recv s) (rel_send s) v (derived s) (calls
  s).
Definition set_derived v (s : ProtoStackBase) : ProtoStackBase :=
  mkProtoStack (ssl_ s) (frame_ s) (up_stack_reentry_level s) (invalidated_ s)
  (ssl_started_ s) (next_retransmit_ s) (to_app_buf s) (ack_send_buf s) (app_write_queue
  s) (raw_write_queue s) (stats s) (now s) (rel_recv s) (rel_send s) (xmit_acks s) v
  (calls s).
Definition set_calls v (s : ProtoStackBase) : ProtoStackBase :=
  mkProtoStack (ssl_ s) (frame_ s) (up_stack_reentry_level s) (invalidated_ s)
  (ssl_started_ s) (next_retransmit_ s) (to_app_buf s) (ack_send_buf s) (app_write_queue
  s) (raw_write_queue s) (stats s) (now s) (rel_recv s) (rel_send s) (xmit_acks s)
  (derived s) v.

(** ** The monad of member functions

    A member function runs on the object and either returns, throws (the
    object keeps the state reached at the throw), or exhausts its fuel. *)
Inductive Res (A : Type) : Type :=
| Ok (a : A) (s : ProtoStackBase)
| Throw (e : exn) (s : ProtoStackBase)
| OutOfFuel.
Arguments Ok {A} a s.
Arguments Throw {A} e s.
Arguments OutOfFuel {A}.

Definition M (A : Type) : Type := ProtoStackBase -> Res A.

Definition ret {A} (a : A) : M A := fun s => Ok a s.

Definition bind {A B} (m : M A) (k : A -> M B) : M B :=
  fun s => match m s with
           | Ok a s' => k a s'
           | Throw e s' => Throw e s'
           | OutOfFuel => OutOfFuel
           end.

Definition throw {A} (e : exn) : M A := fun s => Throw e s.
Definition out_of_fuel {A} : M A := fun _ => OutOfFuel.
Definition gets {A} (f : ProtoStackBase -> A) : M A := fun s => Ok (f s) s.
Definition modify (f : ProtoStackBase -> ProtoStackBase) : M unit :=
  fun s => Ok tt (f s).

(** [try { m } catch (...) { h; throw; }] *)
Definition catch_all {A} (m : M A) (h : M unit) : M A :=
  fun s => match m s with
           | Throw e s' => bind h (fun _ => throw e) s'
           | r => r
           end.

(** A call on [ssl_]: the session object is the only thing it touches. *)
Definition on_ssl {A} (op : SSL -> SslResult exn SSL A) : M A :=
  fun s => match op (ssl_ s) with
           | SslRet a ssl' => Ok a (set_ssl_ ssl' s)
           | SslThrow e ssl' => Throw e (set_ssl_ ssl' s)
           end.

(** Ghost: note a virtual call, then make it. *)
Definition emit (ev : Event) : M unit :=
  modify (fun s => set_calls (calls s ++ [ev]) s).
Definition call {A} (ev : ProtoStackBase -> Event) (f : M A) : M A :=
  fun s => bind (emit (ev s)) (fun _ => f) s.

(** The state a result carries, if any. *)
Definition res_state {A} (r : Res A) : option ProtoStackBase :=
  match r with
  | Ok _ s => Some s
  | Throw _ s => Some s
  | OutOfFuel => None
  end.

(** ** The virtual methods

    Each is a member function of the derived class, so it runs on the whole
    object and may re-enter the public interface.  A non-const reference
    parameter designates a place in the object, and the method reaches it
    through the state:
    - [encapsulate id]: [pkt] is the packet of send-window message [id];
    - [generate_ack]: [pkt] is [ack_send_buf];
    - [app_recv]: [to_app_buf] is the member of that name;
    - [raw_recv]: [raw_pkt] is the packet [rel_recv.next_sequenced()] holds.
    [decapsulate]'s packet belongs to the caller of [net_recv] and
    [net_send]'s is const: both are passed by value. *)
Record Callbacks : Type := {
  encapsulate : id_t -> M unit;
  decapsulate : PACKET -> M bool;
  generate_ack : M unit;
  net_send : PACKET -> M unit;
  app_recv : M unit;
  raw_recv : M unit;
  invalidate_callback : M unit
}.

End ProtoStack.

Arguments Ok {W A} a s.
Arguments Throw {W A} e s.
Arguments OutOfFuel {W A}.

Declare Scope proto_scope.
Delimit Scope proto_scope with proto.
Notation "x <- m ;; k" := (bind m (fun x => k))
  (at level 61, m at next level, right associativity) : proto_scope.
Notation "m ;; k" := (bind m (fun _ => k))
  (at level 61, right associativity) : proto_scope.
Open Scope proto_scope.

(** ** The member functions of ProtoStackBase *)
Section Members.
Context {W : World}.
Variable cb : Callbacks.

(** Modelled from the spec: UseCount (openvpn/common/usecount.hpp) is not
    part of the header.  It is the scoped guard of the reentrancy counter:
    constructing it increments the counter it refers to, and leaving the
    scope, by return or by a propagating exception, decrements it. *)
Definition UseCount {A} (body : M A) : M A :=
  fun s =>
    match body (set_up_stack_reentry_level (up_stack_reentry_level s + 1) s) with
    | Ok a s' => Ok a (set_up_stack_reentry_level (up_stack_reentry_level s' - 1) s')
    | Throw e s' => Throw e (set_up_stack_reentry_level (up_stack_reentry_level s' - 1) s')
    | OutOfFuel => OutOfFuel
    end.

(** [bool invalidated() const] *)
Definition invalidated (s : ProtoStackBase) : bool := invalidated_ s.

(** [bool ssl_started() const] *)
Definition ssl_started (s : ProtoStackBase) : bool := ssl_started_ s.

(** [void invalidate()] *)
Definition invalidate : M unit :=
  modify (set_invalidated_ true) ;;
  call (fun _ => EvInvalidateCallback) (invalidate_callback cb).

(** [if (stats) stats->error(tag);] *)
Definition stats_error (tag : ErrorTag) : M unit :=
  modify (fun s => match stats s with
                   | Some st => set_stats (Some (ProtoStats_error tag st)) s
                   | None => s
                   end).

(** [void update_retransmit()] *)
Definition update_retransmit : M unit :=
  modify (fun s =>
    set_next_retransmit_
      (Time_plus (now s) (rs_until_retransmit (now s) (rel_send s))) s).

(** [Message& m = rel_send.send(now)], with [now] dereferenced: the result is
    the id standing for [m]. *)
Definition rel_send_send : M id_t :=
  fun s => let '(id, rs) := rs_send (now s) (rel_send s) in
           Ok id (set_rel_send rs s).

(** [m.packet = pkt] for the send-window message [id]. *)
Definition assign_packet (id : id_t) (pkt : PACKET) : M unit :=
  modify (fun s =>
    set_rel_send
      (rs_put_by_id id (msg_set_packet pkt (rs_ref_by_id id (rel_send s))) (rel_send s)) s).

(** [m.packet] read through the reference. *)
Definition packet_of (id : id_t) (s : ProtoStackBase) : PACKET :=
  msg_packet (rs_ref_by_id id (rel_send s)).

(** The block both down-stack loops share:
    [try { encapsulate(m.id(), m.packet); }
     catch (...) { if (stats) stats->error(ENCAPSULATION_ERROR); invalidate(); throw; }
     net_send(m.packet);] *)
Definition encapsulate_and_send (id : id_t) : M unit :=
  catch_all (call (fun s => EvEncapsulate id (packet_of id s)) (encapsulate cb id))
            (stats_error ENCAPSULATION_ERROR ;; invalidate) ;;
  pkt <- gets (packet_of id) ;;
  call (fun _ => EvNetSend pkt) (net_send cb pkt).

(** [void down_stack_raw()] *)
Fixpoint down_stack_raw (fuel : nat) : M unit :=
  match fuel with
  | O => out_of_fuel
  | S n => fun s =>
      match raw_write_queue s with
      | [] => Ok tt s
      | front :: _ =>
          if rs_ready (rel_send s) then
            (id <- rel_send_send ;;
             assign_packet id front ;;
             modify (fun s' => set_raw_write_queue (tl (raw_write_queue s')) s') ;;
             encapsulate_and_send id ;;
             down_stack_raw n) s
          else Ok tt s
      end
  end.

(** First loop of [down_stack_app]: push cleartext through the SSL object. *)
Fixpoint app_write_loop (fuel : nat) : M unit :=
  match fuel with
  | O => out_of_fuel
  | S n => fun s =>
      match app_write_queue s with
      | [] => Ok tt s
      | buf :: _ =>
          (size <- catch_all (on_ssl (ssl_write_cleartext_unbuffered buf))
                             (stats_error SSL_ERROR ;; invalidate) ;;
           if size =? SHOULD_RETRY then ret tt
           else
             modify (fun s' => set_app_write_queue (tl (app_write_queue s')) s') ;;
             app_write_loop n) s
      end
  end.

(** Second loop of [down_stack_app]: encapsulate SSL ciphertext packets. *)
Fixpoint ciphertext_loop (fuel : nat) : M unit :=
  match fuel with
  | O => out_of_fuel
  | S n =>
      rdy <- on_ssl ssl_read_ciphertext_ready ;;
      room <- gets (fun s => rs_ready (rel_send s)) ;;
      if rdy && room then
        id <- rel_send_send ;;
        buf <- on_ssl ssl_read_ciphertext ;;
        assign_packet id (PACKET_of_buffer buf) ;;
        encapsulate_and_send id ;;
        ciphertext_loop n
      else ret tt
  end.

(** [void down_stack_app()] *)
Definition down_stack_app (fuel : nat) : M unit :=
  fun s =>
    if ssl_started_ s then (app_write_loop fuel ;; ciphertext_loop fuel) s
    else Ok tt s.

(** [rel_recv.advance()] *)
Definition advance : M unit :=
  modify (fun s => set_rel_recv (rr_advance (rel_recv s)) s).

(** First loop of [up_sequenced]: drain the in-order receive window. *)
Fixpoint recv_loop (fuel : nat) : M unit :=
  match fuel with
  | O => out_of_fuel
  | S n => fun s =>
      if rr_ready (rel_recv s) then
        let pkt := rr_next_sequenced (rel_recv s) in
        if PACKET_is_raw pkt then
          (call (fun _ => EvRawRecv pkt) (raw_recv cb) ;;
           advance ;;
           recv_loop n) s
        else if ssl_started_ s then
          (on_ssl (ssl_write_ciphertext (PACKET_buffer_ptr pkt)) ;;
           advance ;;
           recv_loop n) s
        else Ok tt s
      else Ok tt s
  end.

(** [*to_app_buf], once the pointer is known to be set. *)
Definition deref_to_app_buf (s : ProtoStackBase) : Buffer :=
  match to_app_buf s with
  | Some b => b
  | None => Buffer_new
  end.

(** [if (!to_app_buf) to_app_buf.reset(new BufferAllocated());
     frame_->prepare(Frame::READ_SSL_CLEARTEXT, *to_app_buf);] *)
Definition prepare_to_app_buf : M unit :=
  modify (fun s => match to_app_buf s with
                   | None => set_to_app_buf (Some Buffer_new) s
                   | Some _ => s
                   end) ;;
  modify (fun s => set_to_app_buf
            (Some (Frame_prepare (frame_ s) READ_SSL_CLEARTEXT (deref_to_app_buf s))) s).

(** [ssl_->read_cleartext(to_app_buf->data(), to_app_buf->max_size())]: the
    session writes into the data area of [*to_app_buf]. *)
Definition read_cleartext_call : M Z :=
  fun s => match ssl_read_cleartext (deref_to_app_buf s)
                   (Buffer_max_size (deref_to_app_buf s)) (ssl_ s) with
           | SslRet (size, b) ssl' => Ok size (set_to_app_buf (Some b) (set_ssl_ ssl' s))
           | SslThrow e ssl' => Throw e (set_ssl_ ssl' s)
           end.

(** Second loop of [up_sequenced]: read cleartext data from the SSL object. *)
Fixpoint cleartext_loop (fuel : nat) : M unit :=
  match fuel with
  | O => out_of_fuel
  | S n =>
      rdy <- on_ssl ssl_write_ciphertext_ready ;;
      if (rdy : bool) then
        prepare_to_app_buf ;;
        size <- catch_all read_cleartext_call (stats_error SSL_ERROR ;; invalidate) ;;
        if size =? SHOULD_RETRY then ret tt
        else
          modify (fun s => set_to_app_buf (Some (Buffer_set_size size (deref_to_app_buf s))) s) ;;
          call (fun s => EvAppRecv (to_app_buf s)) (app_recv cb) ;;
          cleartext_loop n
      else ret tt
  end.

(** [if (ssl_started_) while (ssl_->write_ciphertext_ready()) ...] *)
Definition cleartext_pass (fuel : nat) : M unit :=
  fun s => if ssl_started_ s then cleartext_loop fuel s else Ok tt s.

(** [void up_sequenced()] *)
Definition up_sequenced (fuel : nat) : M unit :=
  recv_loop fuel ;; cleartext_pass fuel.

(** [void up_stack(PACKET& recv)] *)
Definition up_stack (fuel : nat) (recv : PACKET) : M unit :=
  UseCount (queued <- call (fun _ => EvDecapsulate recv) (decapsulate cb recv) ;;
            if (queued : bool) then up_sequenced fuel else ret tt).

(** [void start_handshake()] *)
Definition start_handshake (fuel : nat) : M unit :=
  fun s =>
    if negb (invalidated s) then
      (on_ssl ssl_start_handshake ;;
       modify (set_ssl_started_ true) ;;
       up_sequenced fuel) s
    else Ok tt s.

(** [void net_recv(PACKET& pkt)] *)
Definition net_recv (fuel : nat) (pkt : PACKET) : M unit :=
  fun s => if negb (invalidated s) then up_stack fuel pkt s else Ok tt s.

(** [void app_send(BufferPtr& buf)] *)
Definition app_send (buf : Buffer) : M unit :=
  fun s =>
    if negb (invalidated s)
    then Ok tt (set_app_write_queue (app_write_queue s ++ [buf]) s)
    else Ok tt s.

(** [void raw_send(const PACKET& pkt)] *)
Definition raw_send (pkt : PACKET) : M unit :=
  fun s =>
    if negb (invalidated s)
    then Ok tt (set_raw_write_queue (raw_write_queue s ++ [pkt]) s)
    else Ok tt s.

(** The body of [flush]. *)
Definition flush_body (fuel : nat) : M unit :=
  down_stack_raw fuel ;; down_stack_app fuel ;; update_retransmit.

(** [void flush()] *)
Definition flush (fuel : nat) : M unit :=
  fun s =>
    if negb (invalidated s) && (up_stack_reentry_level s =? 0)
    then flush_body fuel s
    else Ok tt s.

(** The loop of [send_pending_acks]. *)
Fixpoint ack_loop (fuel : nat) : M unit :=
  match fuel with
  | O => out_of_fuel
  | S n => fun s =>
      if negb (ra_empty (xmit_acks s)) then
        (modify (fun s' => set_ack_send_buf
                   (PACKET_frame_prepare (frame_ s') WRITE_ACK_STANDALONE (ack_send_buf s')) s') ;;
         call (fun s' => EvGenerateAck (ack_send_buf s')) (generate_ack cb) ;;
         pkt <- gets ack_send_buf ;;
         call (fun _ => EvNetSend pkt) (net_send cb pkt) ;;
         ack_loop n) s
      else Ok tt s
  end.

(** [void send_pending_acks()] *)
Definition send_pending_acks (fuel : nat) : M unit :=
  fun s => if negb (invalidated s) then ack_loop fuel s else Ok tt s.

(** The [for] loop of [retransmit], from index [i] on. *)
Fixpoint retransmit_loop (fuel : nat) (i : id_t) : M unit :=
  match fuel with
  | O => out_of_fuel
  | S n => fun s =>
      if i <? rs_tail_id (rel_send s) then
        let m := rs_ref_by_id i (rel_send s) in
        ((if msg_ready_retransmit (now s) m then
            call (fun _ => EvNetSend (msg_packet m)) (net_send cb (msg_packet m)) ;;
            modify (fun s' =>
              set_rel_send
                (rs_put_by_id i
                   (msg_reset_retransmit (now s') (rs_ref_by_id i (rel_send s')))
                   (rel_send s')) s')
          else ret tt) ;;
         retransmit_loop n (id_succ i)) s
      else Ok tt s
  end.

(** [void retransmit()] *)
Definition retransmit (fuel : nat) : M unit :=
  fun s =>
    if negb (invalidated s) && Time_ge (now s) (next_retransmit_ s) then
      (retransmit_loop fuel (rs_head_id (rel_send s)) ;; update_retransmit) s
    else Ok tt s.

(** [Time next_retransmit() const] *)
Definition next_retransmit (s : ProtoStackBase) : Time :=
  if negb (invalidated s) then next_retransmit_ s else Time_infinite.

End Members.

(** ** Vocabulary of the statements *)
Section Vocabulary.
Context {W : World}.

(** [agree I m1 m2]: from every state satisfying [I], [m1] and [m2] have the
    same outcome, and the state of that outcome satisfies [I] again.  With
    [m1 = m2] it says that [m1] preserves [I]. *)
Definition agree (I : ProtoStackBase -> Prop) {A} (m1 m2 : M A) : Prop :=
  forall s, I s ->
    m1 s = m2 s /\ (forall s', res_state (m1 s) = Some s' -> I s').

(** The invariant is not disturbed by the assignments the member functions
    make, other than those to [next_retransmit_] and to the depth counter
    (the only value ever assigned to [invalidated_] is [true]). *)
Record Stable (I : ProtoStackBase -> Prop) : Prop := {
  st_ssl : forall v s, I s -> I (set_ssl_ v s);
  st_calls : forall v s, I s -> I (set_calls v s);
  st_rel_recv : forall v s, I s -> I (set_rel_recv v s);
  st_rel_send : forall v s, I s -> I (set_rel_send v s);
  st_to_app_buf : forall v s, I s -> I (set_to_app_buf v s);
  st_ack_send_buf : forall v s, I s -> I (set_ack_send_buf v s);
  st_app_write_queue : forall v s, I s -> I (set_app_write_queue v s);
  st_raw_write_queue : forall v s, I s -> I (set_raw_write_queue v s);
  st_stats : forall v s, I s -> I (set_stats v s);
  st_invalidated : forall s, I s -> I (set_invalidated_ true s);
  st_ssl_started : forall v s, I s -> I (set_ssl_started_ v s)
}.

(** Corresponding virtual methods of two derived classes agree. *)
Record CbAgree (I : ProtoStackBase -> Prop) (cb1 cb2 : Callbacks) : Prop := {
  ca_encapsulate : forall id, agree I (encapsulate cb1 id) (encapsulate cb2 id);
  ca_decapsulate : forall p, agree I (decapsulate cb1 p) (decapsulate cb2 p);
  ca_generate_ack : agree I (generate_ack cb1) (generate_ack cb2);
  ca_net_send : forall p, agree I (net_send cb1 p) (net_send cb2 p);
  ca_app_recv : agree I (app_recv cb1) (app_recv cb2);
  ca_raw_recv : agree I (raw_recv cb1) (raw_recv cb2);
  ca_invalidate_callback :
    agree I (invalidate_callback cb1) (invalidate_callback cb2)
}.

(** The invalidated flag is set. *)
Definition latched (s : ProtoStackBase) : Prop := invalidated_ s = true.

(** The depth counter stands at [k]. *)
Definition at_level (k : Z) (s : ProtoStackBase) : Prop :=
  up_stack_reentry_level s = k.

(** A derived class whose virtual methods leave the counter as they found
    it.  The counter is private, so a derived class can change it only by
    calling [net_recv], which restores it. *)
Definition keeps_level (cb : Callbacks) : Prop :=
  forall k, CbAgree (at_level k) cb cb.

(** A derived class whose [decapsulate], [raw_recv] and [app_recv] first run
    [h] and then do what those of [cb] do: [h] stands for the calls such a
    method makes back into the public interface. *)
Definition with_hook (h : M unit) (cb : Callbacks) : Callbacks :=
  {| encapsulate := encapsulate cb;
     decapsulate := fun p => h ;; decapsulate cb p;
     generate_ack := generate_ack cb;
     net_send := net_send cb;
     app_recv := h ;; app_recv cb;
     raw_recv := h ;; raw_recv cb;
     invalidate_callback := invalidate_callback cb |}.

(** [flush] without its test of the depth counter. *)
Definition flush_at_top (cb : Callbacks) (fuel : nat) : M unit :=
  fun s => if negb (invalidated s) then flush_body cb fuel s else Ok tt s.

(** [if (stats) stats->error(tag)] seen from outside: a null [stats] stays
    null, a statistics object gets the tag. *)
Definition record_stat (tag : ErrorTag) (st : option ProtoStats) : option ProtoStats :=
  option_map (ProtoStats_error tag) st.

(** The statistic [tag] has been recorded between [s] and [s']. *)
Definition stat_recorded (tag : ErrorTag) (s s' : ProtoStackBase) : Prop :=
  exists st, stats s = Some st /\ stats s' = Some (ProtoStats_error tag st).

(** An [invalidate_callback] that returns and, as the fields are private,
    leaves the flag and the statistics pointer alone. *)
Definition quiet_hook (cb : Callbacks) : Prop :=
  forall s, exists s',
    invalidate_callback cb s = Ok tt s' /\
    invalidated_ s' = invalidated_ s /\ stats s' = stats s.

(** The state in which [up_stack] calls [decapsulate]. *)
Definition entered (pkt : PACKET) (s : ProtoStackBase) : ProtoStackBase :=
  set_calls (calls s ++ [EvDecapsulate pkt])
    (set_up_stack_reentry_level (up_stack_reentry_level s + 1) s).

(** The state [up_stack] leaves behind when its scope is left in [s1]. *)
Definition departed (s1 : ProtoStackBase) : ProtoStackBase :=
  set_up_stack_reentry_level (up_stack_reentry_level s1 - 1) s1.

(** The buffer [read_cleartext] is given in the state [s]. *)
Definition prepared_buf (s : ProtoStackBase) : Buffer :=
  Frame_prepare (frame_ s) READ_SSL_CLEARTEXT (deref_to_app_buf s).

(** The session took the buffers [done], one write each, in order, and went
    from [ssl0] to [ssl1]; none of the writes signalled a retry. *)
Inductive handed_off : list Buffer -> SSL -> SSL -> Prop :=
| handed_nil ssl0 : handed_off [] ssl0 ssl0
| handed_cons buf done ssl0 size ssl1 ssl2 :
    ssl_write_cleartext_unbuffered buf ssl0 = SslRet size ssl1 ->
    size <> SHOULD_RETRY ->
    handed_off done ssl1 ssl2 ->
    handed_off (buf :: done) ssl0 ssl2.






(** The deadline field holds the value [update_retransmit] computes. *)
Definition deadline_current (s : ProtoStackBase) : Prop :=
  next_retransmit_ s
    = Time_plus (now s) (rs_until_retransmit (now s) (rel_send s)).

Definition is_hook_call (ev : Event) : bool :=
  match ev with
  | EvInvalidateCallback => true
  | _ => false
  end.

(** How many times [invalidate_callback] has been called. *)
Definition hook_calls (s : ProtoStackBase) : nat :=
  length (filter is_hook_call (calls s)).

(** [f a1; f a2; ...], in the order of the list. *)
Fixpoint run_all {A} (f : A -> M unit) (l : list A) : M unit :=
  match l with
  | [] => ret tt
  | a :: rest => f a ;; run_all f rest
  end.

(** However [m] ends, the part [f] of the object is as [m] found it. *)
Definition keeps {A X} (f : ProtoStackBase -> X) (m : M A) : Prop :=
  forall s s', res_state (m s) = Some s' -> f s' = f s.

(** [m] returns or throws: it does not go on for ever. *)
Definition comes_back {A} (m : M A) : Prop := forall s, m s <> OutOfFuel.

(** The virtual methods the down-stack calls leave the part [f] alone. *)
Record DownKeeps {X} (f : ProtoStackBase -> X) (cb : Callbacks) : Prop := {
  dk_encapsulate : forall id, keeps f (encapsulate cb id);
  dk_net_send : forall p, keeps f (net_send cb p);
  dk_invalidate_callback : keeps f (invalidate_callback cb)
}.

(** The virtual methods the down-stack calls return or throw. *)
Record DownComesBack (cb : Callbacks) : Prop := {
  dc_encapsulate : forall id, comes_back (encapsulate cb id);
  dc_net_send : forall p, comes_back (net_send cb p);
  dc_invalidate_callback : comes_back (invalidate_callback cb)
}.

(** What a flush before the handshake must not touch. *)
Definition cleartext_side (s : ProtoStackBase) : list Buffer * SSL * bool :=
  (app_write_queue s, ssl_ s, ssl_started_ s).

(** A trace made of rounds: one [generate_ack], then one [net_send]. *)
Inductive ack_rounds : list Event -> Prop :=
| rounds_nil : ack_rounds []
| rounds_cons p q evs :
    ack_rounds evs -> ack_rounds (EvGenerateAck p :: EvNetSend q :: evs).

(** A turn of the second loop of up_sequenced that reads: in [s] the session
    says cleartext may be waiting, and read_cleartext, called on the prepared
    buffer, returns [size] and leaves the contents [b] in the buffer; [s3] is
    the state after the read. *)
Definition read_at (s : ProtoStackBase) (size : Z) (b : Buffer) (s3 : ProtoStackBase)
  : Prop :=
  exists ssl1 ssl3,
    ssl_write_ciphertext_ready (ssl_ s) = SslRet true ssl1 /\
    ssl_read_cleartext (prepared_buf s) (Buffer_max_size (prepared_buf s)) ssl1
      = SslRet (size, b) ssl3 /\
    s3 = set_to_app_buf (Some b) (set_ssl_ ssl3 s).

(** The state in which [app_recv] is entered after a read of [size] bytes:
    [to_app_buf] holds the buffer with its size set to [size]. *)
Definition handed (size : Z) (b : Buffer) (s3 : ProtoStackBase) : ProtoStackBase :=
  set_calls (calls s3 ++ [EvAppRecv (Some (Buffer_set_size size b))])
    (set_to_app_buf (Some (Buffer_set_size size b)) s3).

(** A returning run of that loop from [s] to [s'], with the calls of
    [app_recv] it makes.  The run ends when the session says no cleartext is
    waiting or when a read signals a retry, and neither turn calls
    [app_recv]; every other turn reads, then calls [app_recv] once, on the
    buffer with its size set to what that read returned, and the run goes on
    from the state [app_recv] returned in. *)
Inductive delivery (cb : Callbacks)
  : ProtoStackBase -> list Event -> ProtoStackBase -> Prop :=
| delivery_idle s ssl1 :
    ssl_write_ciphertext_ready (ssl_ s) = SslRet false ssl1 ->
    delivery cb s [] (set_ssl_ ssl1 s)
| delivery_retry s b s3 :
    read_at s SHOULD_RETRY b s3 ->
    delivery cb s [] s3
| delivery_chunk s size b s3 s5 evs s' :
    read_at s size b s3 ->
    size <> SHOULD_RETRY ->
    app_recv cb (handed size b s3) = Ok tt s5 ->
    delivery cb s5 evs s' ->
    delivery cb s (EvAppRecv (Some (Buffer_set_size size b)) :: evs) s'.

(** Between [s] and [s'] nothing has been recorded: the flag, the statistics
    and the trace of virtual calls are the same. *)
Definition unrecorded (s s' : ProtoStackBase) : Prop :=
  invalidated_ s' = invalidated_ s /\ stats s' = stats s /\ calls s' = calls s.

(** No message of the window, from head to tail, is ready at the current time. *)
Definition none_ready (s : ProtoStackBase) : Prop :=
  forall j, rs_head_id (rel_send s) <= j < rs_tail_id (rel_send s) ->
            msg_ready_retransmit (now s) (rs_ref_by_id j (rel_send s)) = false.

(** The state [update_retransmit] makes of [s]. *)
Definition with_deadline (s : ProtoStackBase) : ProtoStackBase :=
  set_next_retransmit_
    (Time_plus (now s) (rs_until_retransmit (now s) (rel_send s))) s.

End Vocabulary.

(** * A small instance

    One concrete choice of collaborators and of a derived class, on which
    the member functions run by computation.  They are stand-ins for the
    examples: a toy session with an identity cipher, list-based windows, a
    derived class that logs what it is handed.  None of them is the
    repository's own reliability layer or a real SSL library. *)
Module Sim.

Inductive Exn : Type := BadPacket | SslFailure | EncapFailure.

(** Times and durations: a number of ticks, or the infinite sentinel. *)
Inductive XTime : Type := At (t : Z) | Never.

Definition xge (a b : XTime) : bool :=
  match a, b with
  | Never, _ => true
  | At _, Never => false
  | At x, At y => y <=? x
  end.

Definition xplus (a d : XTime) : XTime :=
  match a, d with
  | At x, At y => At (x + y)
  | _, _ => Never
  end.

Definition xmin (a b : XTime) : XTime :=
  match a, b with
  | Never, _ => b
  | _, Never => a
  | At x, At y => At (Z.min x y)
  end.

(** Time left from [now] to [at_], zero when it has passed. *)
Definition xuntil (now_ at_ : XTime) : XTime :=
  match now_, at_ with
  | At x, At y => At (Z.max 0 (y - x))
  | _, Never => Never
  | Never, At _ => At 0
  end.

Definition Buf : Type := list Z.

(** A packet: raw or ciphertext, the id and the acks its header carries
    once encapsulated, and the payload. *)
Record Pkt : Type := mkPkt {
  p_raw : bool;
  p_id : option Z;
  p_acks : list Z;
  p_body : Buf
}.

Definition empty_pkt : Pkt := mkPkt false None [] [].

(** The session: an identity cipher with switches for failures, a number of
    cleartext writes it accepts before signalling a retry, and an optional
    limit on the bytes it takes per write.  [ct_fails] makes read_ciphertext
    and write_ciphertext throw, [query_fails] the two readiness queries. *)
Record Session : Type := mkFullSession {
  hs_fails : bool;
  wr_fails : bool;
  rd_fails : bool;
  credit : nat;
  chunk : option nat;
  outbox : list Buf;
  inbox : list Buf;
  ct_fails : bool;
  query_fails : bool
}.

(** A session whose ciphertext side does not fail. *)
Definition mkSession (hs wr rd : bool) (c : nat) (k : option nat) (o i : list Buf)
  : Session :=
  mkFullSession hs wr rd c k o i false false.

Definition retry : Z := -1.

Definition s_start_handshake (x : Session) : SslResult Exn Session unit :=
  if hs_fails x then SslThrow SslFailure x else SslRet tt x.

Definition s_write_cleartext (buf : Buf) (x : Session) : SslResult Exn Session Z :=
  if wr_fails x then SslThrow SslFailure x
  else match credit x with
       | O => SslRet retry x
       | S c =>
           let taken := match chunk x with
                        | None => buf
                        | Some k => firstn k buf
                        end in
           SslRet (Z.of_nat (length taken))
                  (mkFullSession (hs_fails x) (wr_fails x) (rd_fails x) c (chunk x)
                                 (outbox x ++ [taken]) (inbox x)
                                 (ct_fails x) (query_fails x))
       end.

Definition s_read_ciphertext_ready (x : Session) : SslResult Exn Session bool :=
  if query_fails x then SslThrow SslFailure x
  else SslRet (match outbox x with [] => false | _ => true end) x.

Definition s_read_ciphertext (x : Session) : SslResult Exn Session Buf :=
  if ct_fails x then SslThrow SslFailure x
  else match outbox x with
       | [] => SslThrow SslFailure x
       | b :: rest =>
           SslRet b (mkFullSession (hs_fails x) (wr_fails x) (rd_fails x) (credit x)
                                   (chunk x) rest (inbox x)
                                   (ct_fails x) (query_fails x))
       end.

Definition s_write_ciphertext (buf : Buf) (x : Session) : SslResult Exn Session unit :=
  if ct_fails x then SslThrow SslFailure x
  else SslRet tt (mkFullSession (hs_fails x) (wr_fails x) (rd_fails x) (credit x)
                                (chunk x) (outbox x) (inbox x ++ [buf])
                                (ct_fails x) (query_fails x)).

Definition s_write_ciphertext_ready (x : Session) : SslResult Exn Session bool :=
  if query_fails x then SslThrow SslFailure x
  else SslRet (match inbox x with [] => false | _ => true end) x.

(** An empty record stands for one that carries no cleartext (a handshake
    message): the read consumes it and signals a retry. *)
Definition s_read_cleartext (buf : Buf) (max_size : Z) (x : Session)
  : SslResult Exn Session (Z * Buf) :=
  if rd_fails x then SslThrow SslFailure x
  else match inbox x with
       | [] => SslRet (retry, buf) x
       | b :: rest =>
           let x' := mkFullSession (hs_fails x) (wr_fails x) (rd_fails x) (credit x)
                                   (chunk x) (outbox x) rest
                                   (ct_fails x) (query_fails x) in
           match b with
           | [] => SslRet (retry, buf) x'
           | _ => SslRet (Z.of_nat (length b), b) x'
           end
       end.

(** Send window: the messages with ids [sw_head], [sw_head + 1], ... *)
Record SMsg : Type := mkSMsg {
  sm_id : Z;
  sm_pkt : Pkt;
  sm_at : XTime;
  sm_live : bool
}.

Record SendWin : Type := mkSendWin {
  sw_head : Z;
  sw_msgs : list SMsg;
  sw_span : nat
}.

Definition dead_msg : SMsg := mkSMsg 0 empty_pkt Never false.
Definition tls_timeout : XTime := At 2.

(** [i + n] on 32-bit ids: past the last id it wraps around. *)
Definition id_add (i : Z) (n : nat) : Z :=
  let j := i + Z.of_nat n in
  if j <? id_modulus then j else j mod id_modulus.

Definition sw_tail (w : SendWin) : Z := id_add (sw_head w) (length (sw_msgs w)).

Definition sw_ref (i : Z) (w : SendWin) : SMsg :=
  nth (Z.to_nat (i - sw_head w)) (sw_msgs w) dead_msg.

Fixpoint put_nth {A} (k : nat) (a : A) (l : list A) {struct l} : list A :=
  match l, k with
  | [], _ => []
  | _ :: rest, O => a :: rest
  | x :: rest, S k' => x :: put_nth k' a rest
  end.

Definition sw_put (i : Z) (m : SMsg) (w : SendWin) : SendWin :=
  if sw_head w <=? i
  then mkSendWin (sw_head w) (put_nth (Z.to_nat (i - sw_head w)) m (sw_msgs w)) (sw_span w)
  else w.

Definition sw_ready (w : SendWin) : bool := (length (sw_msgs w) <? sw_span w)%nat.

Definition sw_send (t : XTime) (w : SendWin) : Z * SendWin :=
  (sw_tail w,
   mkSendWin (sw_head w)
             (sw_msgs w ++ [mkSMsg (sw_tail w) empty_pkt (xplus t tls_timeout) true])
             (sw_span w)).

Definition sw_until (t : XTime) (w : SendWin) : XTime :=
  fold_right (fun m acc => if sm_live m then xmin (xuntil t (sm_at m)) acc else acc)
             Never (sw_msgs w).

(** [ack(id)]: the message is retired. *)
Definition sw_ack (i : Z) (w : SendWin) : SendWin :=
  let m := sw_ref i w in
  sw_put i (mkSMsg (sm_id m) (sm_pkt m) (sm_at m) false) w.

(** Receive window: the in-order cursor and the packets held, by id. *)
Record RecvWin : Type := mkRecvWin {
  rw_next : Z;
  rw_held : list (Z * Pkt)
}.

Definition rw_find (w : RecvWin) : option Pkt :=
  option_map snd (find (fun e => fst e =? rw_next w) (rw_held w)).

Definition rw_ready (w : RecvWin) : bool :=
  match rw_find w with Some _ => true | None => false end.

Definition rw_next_sequenced (w : RecvWin) : Pkt :=
  match rw_find w with Some p => p | None => empty_pkt end.

Definition rw_advance (w : RecvWin) : RecvWin :=
  mkRecvWin (rw_next w + 1)
            (filter (fun e => negb (fst e =? rw_next w)) (rw_held w)).

(** Insert unless the id is behind the cursor or already held. *)
Definition rw_insert (i : Z) (p : Pkt) (w : RecvWin) : bool * RecvWin :=
  if (i <? rw_next w) || existsb (fun e => fst e =? i) (rw_held w)
  then (false, w)
  else (true, mkRecvWin (rw_next w) (rw_held w ++ [(i, p)])).

(** The members of the derived class: what it has put on the wire, what it
    has delivered, and a switch that makes [encapsulate] fail. *)
Record App : Type := mkApp {
  wire : list Pkt;
  delivered : list Buf;
  raw_delivered : list Pkt;
  encaps_fail : bool
}.

#[local] Instance world : World := {|
  exn := Exn;
  Time := XTime;
  Duration := XTime;
  Time_infinite := Never;
  Time_ge := xge;
  Time_plus := xplus;
  Buffer := Buf;
  Frame := unit;
  Buffer_new := [];
  Buffer_max_size := fun _ => 1500;
  Buffer_set_size := fun n b => firstn (Z.to_nat n) b;
  Frame_prepare := fun _ _ _ => [];
  PACKET := Pkt;
  PACKET_of_buffer := fun b => mkPkt false None [] b;
  PACKET_is_raw := p_raw;
  PACKET_buffer_ptr := p_body;
  PACKET_frame_prepare := fun _ _ _ => empty_pkt;
  SSL := Session;
  SHOULD_RETRY := retry;
  ssl_start_handshake := s_start_handshake;
  ssl_write_cleartext_unbuffered := s_write_cleartext;
  ssl_read_ciphertext_ready := s_read_ciphertext_ready;
  ssl_read_ciphertext := s_read_ciphertext;
  ssl_write_ciphertext := s_write_ciphertext;
  ssl_write_ciphertext_ready := s_write_ciphertext_ready;
  ssl_read_cleartext := s_read_cleartext;
  ReliableSend := SendWin;
  SendMessage := SMsg;
  msg_id := sm_id;
  msg_packet := sm_pkt;
  msg_set_packet := fun p m => mkSMsg (sm_id m) p (sm_at m) (sm_live m);
  msg_ready_retransmit := fun t m => sm_live m && xge t (sm_at m);
  msg_reset_retransmit := fun t m =>
    mkSMsg (sm_id m) (sm_pkt m) (xplus t tls_timeout) (sm_live m);
  rs_head_id := sw_head;
  rs_tail_id := sw_tail;
  rs_ref_by_id := sw_ref;
  rs_put_by_id := sw_put;
  rs_ready := sw_ready;
  rs_send := sw_send;
  rs_until_retransmit := sw_until;
  ReliableRecv := RecvWin;
  rr_ready := rw_ready;
  rr_next_sequenced := rw_next_sequenced;
  rr_advance := rw_advance;
  ReliableAck := list Z;
  ra_empty := fun l => match l with [] => true | _ => false end;
  ProtoStats := list ErrorTag;
  ProtoStats_error := fun tag st => st ++ [tag];
  Derived := App
|}.

(** The virtual methods of the derived class. *)
Definition d_encapsulate (id : id_t) : M unit :=
  fun s =>
    if encaps_fail (derived s) then Throw EncapFailure s
    else
      let m := sw_ref id (rel_send s) in
      let p := mkPkt (p_raw (sm_pkt m)) (Some id) (xmit_acks s) (p_body (sm_pkt m)) in
      Ok tt (set_xmit_acks []
               (set_rel_send
                  (sw_put id (mkSMsg (sm_id m) p (sm_at m) (sm_live m)) (rel_send s)) s)).

Definition d_decapsulate (pkt : Pkt) : M bool :=
  fun s =>
    let acked := fold_right sw_ack (rel_send s) (p_acks pkt) in
    match p_id pkt with
    | None =>
        match p_acks pkt with
        | [] => Throw BadPacket s
        | _ => Ok false (set_rel_send acked s)
        end
    | Some i =>
        let '(queued, rw) := rw_insert i pkt (rel_recv s) in
        Ok queued (set_xmit_acks (xmit_acks s ++ [i])
                     (set_rel_recv rw (set_rel_send acked s)))
    end.

Definition d_generate_ack : M unit :=
  fun s => Ok tt (set_xmit_acks []
                    (set_ack_send_buf (mkPkt false None (xmit_acks s) []) s)).

Definition d_net_send (pkt : Pkt) : M unit :=
  fun s =>
    let d := derived s in
    Ok tt (set_derived (mkApp (wire d ++ [pkt]) (delivered d) (raw_delivered d)
                              (encaps_fail d)) s).

Definition d_app_recv : M unit :=
  fun s =>
    let d := derived s in
    Ok tt (set_derived (mkApp (wire d) (delivered d ++ [deref_to_app_buf s])
                              (raw_delivered d) (encaps_fail d)) s).

Definition d_raw_recv : M unit :=
  fun s =>
    let d := derived s in
    Ok tt (set_derived (mkApp (wire d) (delivered d)
                              (raw_delivered d ++ [rw_next_sequenced (rel_recv s)])
                              (encaps_fail d)) s).

Definition cb : Callbacks :=
  {| encapsulate := d_encapsulate;
     decapsulate := d_decapsulate;
     generate_ack := d_generate_ack;
     net_send := d_net_send;
     app_recv := d_app_recv;
     raw_recv := d_raw_recv;
     invalidate_callback := ret tt |}.

(** The object as constructed, with window span 4, at time 10. *)
Definition fresh_session : Session := mkSession false false false 8 None [] [].

Definition fresh : ProtoStackBase :=
  {| ssl_ := fresh_session;
     frame_ := tt;
     up_stack_reentry_level := 0;
     invalidated_ := false;
     ssl_started_ := false;
     next_retransmit_ := Never;
     to_app_buf := None;
     ack_send_buf := empty_pkt;
     app_write_queue := [];
     raw_write_queue := [];
     stats := Some [];
     now := At 10;
     rel_recv := mkRecvWin 0 [];
     rel_send := mkSendWin 0 [] 4;
     xmit_acks := [];
     derived := mkApp [] [] [] false;
     calls := [] |}.

(** *** Scenarios *)

Definition raw1 : Pkt := mkPkt true None [] [7; 8].
Definition raw2 : Pkt := mkPkt true None [] [9].
Definition ack0 : Pkt := mkPkt false None [0] [].
Definition cipher0 : Pkt := mkPkt false (Some 0) [] [4; 5].
Definition rawin0 : Pkt := mkPkt true (Some 0) [] [6].

(** The state a computation ends in ([fresh] if it runs out of fuel). *)
Definition state_after (r : Res unit) : ProtoStackBase :=
  match res_state r with
  | Some s => s
  | None => fresh
  end.

(** One raw packet waiting to be sent. *)
Definition with_raw_queued : ProtoStackBase :=
  set_raw_write_queue (W := world) [raw1] fresh.

(** The same, but without a statistics object and with a derived class whose
    [encapsulate] throws. *)
Definition no_stats : ProtoStackBase :=
  set_derived (W := world) (mkApp [] [] [] true)
    (set_stats (W := world) None with_raw_queued).

(** A started session that throws on the next cleartext write. *)
Definition write_fails : ProtoStackBase :=
  set_ssl_started_ true
    (set_app_write_queue (W := world) [[1; 2; 3]]
       (set_ssl_ (W := world) (mkSession false true false 8 None [] []) fresh)).

(** A started session that signals a retry on the next cleartext write. *)
Definition stalled : ProtoStackBase :=
  set_ssl_started_ true
    (set_app_write_queue (W := world) [[1; 2; 3]; [4]]
       (set_ssl_ (W := world) (mkSession false false false 0 None [] []) fresh)).

(** A started session that takes at most two bytes per write. *)
Definition chunky : ProtoStackBase :=
  set_ssl_started_ true
    (set_app_write_queue (W := world) [[1; 2; 3]]
       (set_ssl_ (W := world) (mkSession false false false 8 (Some 2%nat) [] []) fresh)).

(** A session whose start_handshake throws. *)
Definition handshake_fails : ProtoStackBase :=
  set_ssl_ (W := world) (mkSession true false false 8 None [] []) fresh.

(** An invalidated object with work queued. *)
Definition dead : ProtoStackBase := set_invalidated_ true with_raw_queued.

(** After the flush of [with_raw_queued]: message 0 is in the send window. *)
Definition sent_one : ProtoStackBase :=
  Eval vm_compute in state_after (flush cb 5 with_raw_queued).


(** A ciphertext packet received before the handshake has started. *)
Definition held : ProtoStackBase :=
  Eval vm_compute in state_after (net_recv cb 5 cipher0 fresh).

(** A raw packet in the receive window and another waiting to be sent. *)
Definition raw_held : ProtoStackBase :=
  set_rel_recv (W := world) (mkRecvWin 0 [(0, rawin0)]) with_raw_queued.

(** A derived class whose up-stack methods call flush. *)
Definition flushing : Callbacks := with_hook (flush cb 5) cb.

(** Five raw packets waiting, for a window of span 4. *)
Definition five_raw : ProtoStackBase :=
  set_raw_write_queue (W := world) [raw1; raw2; raw1; raw2; raw1] fresh.

(** A started session that has taken two cleartext buffers and holds their
    ciphertext. *)
Definition cipher_pending : ProtoStackBase :=
  Eval vm_compute in
    state_after
      (app_write_loop cb 5
         (set_ssl_started_ true (set_app_write_queue (W := world) [[1]; [2]] fresh))).

(** Two ids waiting to be acknowledged. *)
Definition acks_pending : ProtoStackBase := set_xmit_acks (W := world) [3; 4] fresh.

(** Cleartext and a raw packet sent before the handshake has started. *)
Definition early_send : ProtoStackBase :=
  set_app_write_queue (W := world) [[1]; [2]] with_raw_queued.

(** The only message sent has been acknowledged, and its deadline has come. *)
Definition all_acked : ProtoStackBase :=
  Eval vm_compute in
    set_now (W := world) (At 12) (state_after (net_recv cb 5 ack0 sent_one)).

(** A started session with two records waiting to be read as cleartext. *)
Definition cleartext_waiting : ProtoStackBase :=
  set_ssl_started_ true
    (set_ssl_ (W := world) (mkSession false false false 8 None [] [[4; 5]; [6]]) fresh).

(** The same, with a record that carries no cleartext between the two. *)
Definition handshake_record_waiting : ProtoStackBase :=
  set_ssl_started_ true
    (set_ssl_ (W := world) (mkSession false false false 8 None [] [[4; 5]; []; [6]]) fresh).



(** A started session, holding the ciphertext of one buffer, whose
    ciphertext reads and writes throw; a ciphertext packet is next in the
    receive window. *)
Definition ciphertext_fails : ProtoStackBase :=
  set_ssl_started_ true
    (set_ssl_ (W := world)
       (mkFullSession false false false 8 None [[1]] [] true false) held).

(** A started session with a record waiting whose cleartext reads throw. *)
Definition read_fails : ProtoStackBase :=
  set_ssl_started_ true
    (set_ssl_ (W := world) (mkSession false false true 8 None [] [[4]]) fresh).

(** A started session whose readiness queries throw. *)
Definition queries_fail : ProtoStackBase :=
  set_ssl_started_ true
    (set_ssl_ (W := world)
       (mkFullSession false false false 8 None [] [] false true) fresh).

End Sim.

(** * Properties *)

(** ** Equations of the monad *)
Section MonadEquations.
Context {W : World}.

Lemma bind_ok {A B} (m : M A) (k : A -> M B) s a s' :
  m s = Ok a s' -> bind m k s = k a s'.
Proof. intros H. unfold bind. now rewrite H. Qed.

Lemma bind_throw {A B} (m : M A) (k : A -> M B) s e s' :
  m s = Throw e s' -> bind m k s = Throw e s'.
Proof. intros H. unfold bind. now rewrite H. Qed.

Lemma call_eq {A} ev (f : M A) s :
  call ev f s = f (set_calls (calls s ++ [ev s]) s).
Proof. reflexivity. Qed.

Lemma catch_all_ok {A} (m : M A) h s a s' :
  m s = Ok a s' -> catch_all m h s = Ok a s'.
Proof. intros H. unfold catch_all. now rewrite H. Qed.

Lemma catch_all_throw {A} (m : M A) h s e s' :
  m s = Throw e s' -> catch_all m h s = bind h (fun _ => throw e) s'.
Proof. intros H. unfold catch_all. now rewrite H. Qed.

Lemma bind_ok_inv {A B} (m : M A) (k : A -> M B) s b s' :
  bind m k s = Ok b s' -> exists a s1, m s = Ok a s1 /\ k a s1 = Ok b s'.
Proof.
  unfold bind. destruct (m s) as [a s1 | e s1 |]; try discriminate.
  intros H. now exists a, s1.
Qed.

End MonadEquations.

(** ** Unfolding of the guards *)
Section Guards.
Context {W : World}.
Variable cb : Callbacks.

Lemma start_handshake_invalidated n s :
  invalidated_ s = true -> start_handshake cb n s = Ok tt s.
Proof. intros H. unfold start_handshake, invalidated. now rewrite H. Qed.

Lemma net_recv_invalidated n pkt s :
  invalidated_ s = true -> net_recv cb n pkt s = Ok tt s.
Proof. intros H. unfold net_recv, invalidated. now rewrite H. Qed.

Lemma app_send_invalidated buf s :
  invalidated_ s = true -> app_send buf s = Ok tt s.
Proof. intros H. unfold app_send, invalidated. now rewrite H. Qed.

Lemma raw_send_invalidated pkt s :
  invalidated_ s = true -> raw_send pkt s = Ok tt s.
Proof. intros H. unfold raw_send, invalidated. now rewrite H. Qed.

Lemma flush_invalidated n s :
  invalidated_ s = true -> flush cb n s = Ok tt s.
Proof. intros H. unfold flush, invalidated. now rewrite H. Qed.

Lemma send_pending_acks_invalidated n s :
  invalidated_ s = true -> send_pending_acks cb n s = Ok tt s.
Proof. intros H. unfold send_pending_acks, invalidated. now rewrite H. Qed.

Lemma retransmit_invalidated n s :
  invalidated_ s = true -> retransmit cb n s = Ok tt s.
Proof. intros H. unfold retransmit, invalidated. now rewrite H. Qed.

Lemma next_retransmit_invalidated s :
  invalidated_ s = true -> next_retransmit s = Time_infinite.
Proof. intros H. unfold next_retransmit, invalidated. now rewrite H. Qed.

Lemma flush_suppressed n s :
  up_stack_reentry_level s <> 0 -> flush cb n s = Ok tt s.
Proof.
  intros H. unfold flush.
  destruct (Z.eqb_spec (up_stack_reentry_level s) 0) as [E | _]; [contradiction |].
  now rewrite andb_false_r.
Qed.

Lemma flush_top_level n s :
  invalidated_ s = false -> up_stack_reentry_level s = 0 ->
  flush cb n s = flush_body cb n s.
Proof.
  intros Hi Hl. unfold flush, invalidated. now rewrite Hi, Hl.
Qed.

Lemma net_recv_valid n pkt s :
  invalidated_ s = false -> net_recv cb n pkt s = up_stack cb n pkt s.
Proof. intros H. unfold net_recv, invalidated. now rewrite H. Qed.

End Guards.

(** ** Two computations that agree under an invariant *)
Section Agree.
Context {W : World}.
Variable I : ProtoStackBase -> Prop.

Lemma agree_ret {A} (a : A) : agree I (ret a) (ret a).
Proof. intros s Hs. split; [reflexivity |]. cbn. now intros s' [= <-]. Qed.

Lemma agree_throw {A} e : agree I (@throw _ A e) (throw e).
Proof. intros s Hs. split; [reflexivity |]. cbn. now intros s' [= <-]. Qed.

Lemma agree_gets {A} (f : ProtoStackBase -> A) : agree I (gets f) (gets f).
Proof. intros s Hs. split; [reflexivity |]. cbn. now intros s' [= <-]. Qed.

Lemma agree_modify f :
  (forall s, I s -> I (f s)) -> agree I (modify f) (modify f).
Proof. intros Hf s Hs. split; [reflexivity |]. cbn. intros s' [= <-]. auto. Qed.

Lemma agree_bind {A B} (m1 m2 : M A) (k1 k2 : A -> M B) :
  agree I m1 m2 -> (forall a, agree I (k1 a) (k2 a)) ->
  agree I (bind m1 k1) (bind m2 k2).
Proof.
  intros Hm Hk s Hs. destruct (Hm s Hs) as [E P]. unfold bind. rewrite <- E.
  destruct (m1 s) as [a s1 | e s1 |]; cbn in P.
  - apply Hk, P. reflexivity.
  - split; [reflexivity |]. cbn. intros s' [= <-]. now apply P.
  - split; [reflexivity | discriminate].
Qed.

Lemma agree_catch_all {A} (m1 m2 : M A) (h1 h2 : M unit) :
  agree I m1 m2 -> agree I h1 h2 -> agree I (catch_all m1 h1) (catch_all m2 h2).
Proof.
  intros Hm Hh s Hs. destruct (Hm s Hs) as [E P]. unfold catch_all.
  rewrite <- E. destruct (m1 s) as [a s1 | e s1 |]; cbn in P.
  - split; [reflexivity |]. cbn. intros s' [= <-]. now apply P.
  - apply (agree_bind h1 h2 (fun _ => throw e) (fun _ => throw e)); auto.
    intros _. apply agree_throw.
  - split; [reflexivity | discriminate].
Qed.

Hypothesis HI : Stable I.
Variables cb1 cb2 : Callbacks.
Hypothesis Hcb : CbAgree I cb1 cb2.

Lemma agree_on_ssl {A} (op : SSL -> SslResult exn SSL A) :
  agree I (on_ssl op) (on_ssl op).
Proof.
  intros s Hs. split; [reflexivity |]. unfold on_ssl.
  destruct (op (ssl_ s)); cbn; intros s' [= <-]; now apply (st_ssl I HI).
Qed.

Lemma agree_call {A} ev (f1 f2 : M A) :
  agree I f1 f2 -> agree I (call ev f1) (call ev f2).
Proof.
  intros Hf s Hs. unfold call, emit, bind, modify.
  apply Hf. now apply (st_calls I HI).
Qed.

Lemma agree_stats_error tag : agree I (stats_error tag) (stats_error tag).
Proof.
  apply agree_modify. intros s Hs. destruct (stats s); [| assumption].
  now apply (st_stats I HI).
Qed.

Lemma agree_invalidate : agree I (invalidate cb1) (invalidate cb2).
Proof.
  apply agree_bind.
  - apply agree_modify. apply (st_invalidated I HI).
  - intros _. apply agree_call, (ca_invalidate_callback I _ _ Hcb).
Qed.

Lemma agree_fatal tag :
  agree I (stats_error tag ;; invalidate cb1) (stats_error tag ;; invalidate cb2).
Proof.
  apply agree_bind; [apply agree_stats_error | intros _; apply agree_invalidate].
Qed.

Lemma agree_rel_send_send : agree I rel_send_send rel_send_send.
Proof.
  intros s Hs. split; [reflexivity |]. unfold rel_send_send.
  destruct (rs_send (now s) (rel_send s)) as [id rs]. cbn.
  intros s' [= <-]. now apply (st_rel_send I HI).
Qed.

Lemma agree_assign_packet id pkt :
  agree I (assign_packet id pkt) (assign_packet id pkt).
Proof. apply agree_modify. intros s. apply (st_rel_send I HI). Qed.

Lemma agree_encapsulate_and_send id :
  agree I (encapsulate_and_send cb1 id) (encapsulate_and_send cb2 id).
Proof.
  apply agree_bind.
  - apply agree_catch_all; [| apply agree_fatal].
    apply agree_call, (ca_encapsulate I _ _ Hcb).
  - intros _. apply agree_bind; [apply agree_gets |].
    intros pkt. apply agree_call, (ca_net_send I _ _ Hcb).
Qed.

Lemma agree_down_stack_raw n :
  agree I (down_stack_raw cb1 n) (down_stack_raw cb2 n).
Proof.
  induction n as [| n IH]; intros s Hs.
  - split; [reflexivity | discriminate].
  - cbn [down_stack_raw]. destruct (raw_write_queue s) as [| front rest].
    + split; [reflexivity |]. cbn. now intros s' [= <-].
    + destruct (rs_ready (rel_send s)).
      * revert s Hs. apply agree_bind; [apply agree_rel_send_send |].
        intros id. apply agree_bind; [apply agree_assign_packet |].
        intros _. apply agree_bind.
        { apply agree_modify. intros s. apply (st_raw_write_queue I HI). }
        intros _. apply agree_bind; [apply agree_encapsulate_and_send |].
        intros _. exact IH.
      * split; [reflexivity |]. cbn. now intros s' [= <-].
Qed.

Lemma agree_app_write_loop n :
  agree I (app_write_loop cb1 n) (app_write_loop cb2 n).
Proof.
  induction n as [| n IH]; intros s Hs.
  - split; [reflexivity | discriminate].
  - cbn [app_write_loop]. destruct (app_write_queue s) as [| buf rest].
    + split; [reflexivity |]. cbn. now intros s' [= <-].
    + revert s Hs. apply agree_bind.
      * apply agree_catch_all; [apply agree_on_ssl | apply agree_fatal].
      * intros size. destruct (size =? SHOULD_RETRY); [apply agree_ret |].
        apply agree_bind; [| intros _; exact IH].
        apply agree_modify. intros s. apply (st_app_write_queue I HI).
Qed.

Lemma agree_ciphertext_loop n :
  agree I (ciphertext_loop cb1 n) (ciphertext_loop cb2 n).
Proof.
  induction n as [| n IH].
  - intros s Hs. split; [reflexivity | discriminate].
  - cbn [ciphertext_loop]. apply agree_bind; [apply agree_on_ssl |].
    intros rdy. apply agree_bind; [apply agree_gets |].
    intros room. destruct (rdy && room); [| apply agree_ret].
    apply agree_bind; [apply agree_rel_send_send |].
    intros id. apply agree_bind; [apply agree_on_ssl |].
    intros buf. apply agree_bind; [apply agree_assign_packet |].
    intros _. apply agree_bind; [apply agree_encapsulate_and_send |].
    intros _. exact IH.
Qed.

Lemma agree_down_stack_app n :
  agree I (down_stack_app cb1 n) (down_stack_app cb2 n).
Proof.
  intros s Hs. unfold down_stack_app. destruct (ssl_started_ s).
  - revert s Hs. apply agree_bind; [apply agree_app_write_loop |].
    intros _. apply agree_ciphertext_loop.
  - split; [reflexivity |]. cbn. now intros s' [= <-].
Qed.

Lemma agree_flush_body n :
  (forall v s, I s -> I (set_next_retransmit_ v s)) ->
  agree I (flush_body cb1 n) (flush_body cb2 n).
Proof.
  intros Hnr. apply agree_bind; [apply agree_down_stack_raw |].
  intros _. apply agree_bind; [apply agree_down_stack_app |].
  intros _. apply agree_modify. intros s. apply Hnr.
Qed.

Lemma agree_recv_loop n : agree I (recv_loop cb1 n) (recv_loop cb2 n).
Proof.
  induction n as [| n IH]; intros s Hs.
  - split; [reflexivity | discriminate].
  - cbn [recv_loop]. destruct (rr_ready (rel_recv s)).
    2:{ split; [reflexivity |]. cbn. now intros s' [= <-]. }
    generalize (rr_next_sequenced (rel_recv s)). intros pkt.
    destruct (PACKET_is_raw pkt).
    + revert s Hs. apply agree_bind; [apply agree_call, (ca_raw_recv I _ _ Hcb) |].
      intros _. apply agree_bind; [| intros _; exact IH].
      apply agree_modify. intros s. apply (st_rel_recv I HI).
    + destruct (ssl_started_ s).
      * revert s Hs. apply agree_bind; [apply agree_on_ssl |].
        intros _. apply agree_bind; [| intros _; exact IH].
        apply agree_modify. intros s. apply (st_rel_recv I HI).
      * split; [reflexivity |]. cbn. now intros s' [= <-].
Qed.

Lemma agree_read_cleartext_call : agree I read_cleartext_call read_cleartext_call.
Proof.
  intros s Hs. split; [reflexivity |]. unfold read_cleartext_call.
  destruct (ssl_read_cleartext (deref_to_app_buf s)
              (Buffer_max_size (deref_to_app_buf s)) (ssl_ s)) as [[size b] ssl' | e ssl'];
    cbn; intros s' [= <-].
  - now apply (st_to_app_buf I HI), (st_ssl I HI).
  - now apply (st_ssl I HI).
Qed.

Lemma agree_cleartext_loop n :
  agree I (cleartext_loop cb1 n) (cleartext_loop cb2 n).
Proof.
  induction n as [| n IH].
  - intros s Hs. split; [reflexivity | discriminate].
  - cbn [cleartext_loop]. apply agree_bind; [apply agree_on_ssl |].
    intros rdy. destruct rdy; [| apply agree_ret].
    apply agree_bind.
    { apply agree_bind.
      - apply agree_modify. intros s Hs. destruct (to_app_buf s); [assumption |].
        now apply (st_to_app_buf I HI).
      - intros _. apply agree_modify. intros s. apply (st_to_app_buf I HI). }
    intros _. apply agree_bind.
    { apply agree_catch_all; [apply agree_read_cleartext_call | apply agree_fatal]. }
    intros size. destruct (size =? SHOULD_RETRY); [apply agree_ret |].
    apply agree_bind.
    { apply agree_modify. intros s. apply (st_to_app_buf I HI). }
    intros _. apply agree_bind; [apply agree_call, (ca_app_recv I _ _ Hcb) |].
    intros _. exact IH.
Qed.

Lemma agree_up_sequenced n :
  agree I (up_sequenced cb1 n) (up_sequenced cb2 n).
Proof.
  apply agree_bind; [apply agree_recv_loop |].
  intros _ s Hs. unfold cleartext_pass. destruct (ssl_started_ s).
  - now apply agree_cleartext_loop.
  - split; [reflexivity |]. cbn. now intros s' [= <-].
Qed.

Lemma agree_ack_loop n : agree I (ack_loop cb1 n) (ack_loop cb2 n).
Proof.
  induction n as [| n IH]; intros s Hs.
  - split; [reflexivity | discriminate].
  - cbn [ack_loop]. destruct (negb (ra_empty (xmit_acks s))).
    2:{ split; [reflexivity |]. cbn. now intros s' [= <-]. }
    revert s Hs. apply agree_bind.
    { apply agree_modify. intros s. apply (st_ack_send_buf I HI). }
    intros _. apply agree_bind; [apply agree_call, (ca_generate_ack I _ _ Hcb) |].
    intros _. apply agree_bind; [apply agree_gets |].
    intros pkt. apply agree_bind; [apply agree_call, (ca_net_send I _ _ Hcb) |].
    intros _. exact IH.
Qed.

Lemma agree_retransmit_loop n :
  forall i, agree I (retransmit_loop cb1 n i) (retransmit_loop cb2 n i).
Proof.
  induction n as [| n IH]; intros i s Hs.
  - split; [reflexivity | discriminate].
  - cbn [retransmit_loop]. destruct (i <? rs_tail_id (rel_send s)).
    2:{ split; [reflexivity |]. cbn. now intros s' [= <-]. }
    generalize (rs_ref_by_id i (rel_send s)). intros m.
    generalize (msg_ready_retransmit (now s) m). intros rdy.
    revert s Hs. apply agree_bind; [| intros _; apply IH].
    destruct rdy; [| apply agree_ret].
    apply agree_bind; [apply agree_call, (ca_net_send I _ _ Hcb) |].
    intros _. apply agree_modify. intros s. apply (st_rel_send I HI).
Qed.

(** [UseCount] under an invariant that does not look at the counter. *)
Lemma agree_UseCount_blind {A} (b1 b2 : M A) :
  (forall v s, I s -> I (set_up_stack_reentry_level v s)) ->
  agree I b1 b2 -> agree I (UseCount b1) (UseCount b2).
Proof.
  intros Hl Hb s Hs. unfold UseCount.
  destruct (Hb (set_up_stack_reentry_level (up_stack_reentry_level s + 1) s)) as [E P].
  { now apply Hl. }
  rewrite <- E.
  destruct (b1 (set_up_stack_reentry_level (up_stack_reentry_level s + 1) s))
    as [a s1 | e s1 |]; cbn in P.
  - split; [reflexivity |]. cbn. intros s' [= <-]. now apply Hl, P.
  - split; [reflexivity |]. cbn. intros s' [= <-]. now apply Hl, P.
  - split; [reflexivity | discriminate].
Qed.

(** What [up_stack] runs inside the scope of its [UseCount]. *)
Lemma agree_up_stack_body n pkt :
  agree I (queued <- call (fun _ => EvDecapsulate pkt) (decapsulate cb1 pkt) ;;
         if (queued : bool) then up_sequenced cb1 n else ret tt)
        (queued <- call (fun _ => EvDecapsulate pkt) (decapsulate cb2 pkt) ;;
         if (queued : bool) then up_sequenced cb2 n else ret tt).
Proof.
  apply agree_bind; [apply agree_call, (ca_decapsulate I _ _ Hcb) |].
  intros q. destruct q; [apply agree_up_sequenced | apply agree_ret].
Qed.

Lemma agree_up_stack_blind n pkt :
  (forall v s, I s -> I (set_up_stack_reentry_level v s)) ->
  agree I (up_stack cb1 n pkt) (up_stack cb2 n pkt).
Proof.
  intros Hl. apply agree_UseCount_blind; [exact Hl | apply agree_up_stack_body].
Qed.

End Agree.

(** ** The reentrancy depth counter *)
Section Depth.
Context {W : World}.

Lemma at_level_stable k : Stable (at_level k).
Proof. split; intros; assumption. Qed.

Lemma agree_hooks I (h1 h2 : M unit) cb :
  agree I h1 h2 -> CbAgree I cb cb ->
  CbAgree I (with_hook h1 cb) (with_hook h2 cb).
Proof.
  intros Hh Hc. split; cbn.
  - apply (ca_encapsulate _ _ _ Hc).
  - intros p. apply agree_bind; [exact Hh | intros _; apply (ca_decapsulate _ _ _ Hc)].
  - apply (ca_generate_ack _ _ _ Hc).
  - apply (ca_net_send _ _ _ Hc).
  - apply agree_bind; [exact Hh | intros _; apply (ca_app_recv _ _ _ Hc)].
  - apply agree_bind; [exact Hh | intros _; apply (ca_raw_recv _ _ _ Hc)].
  - apply (ca_invalidate_callback _ _ _ Hc).
Qed.

Lemma agree_drop_hook I (h : M unit) cb :
  agree I h (ret tt) -> CbAgree I cb cb -> CbAgree I (with_hook h cb) cb.
Proof.
  intros Hh Hc.
  assert (Hb : forall A (f : M A), agree I f f -> agree I (h ;; f) f).
  { intros A f Hf s Hs.
    destruct (agree_bind I h (ret tt) (fun _ => f) (fun _ => f) Hh (fun _ => Hf) s Hs)
      as [E P].
    split; [exact E | exact P]. }
  split; cbn.
  - apply (ca_encapsulate _ _ _ Hc).
  - intros p. apply Hb, (ca_decapsulate _ _ _ Hc).
  - apply (ca_generate_ack _ _ _ Hc).
  - apply (ca_net_send _ _ _ Hc).
  - apply Hb, (ca_app_recv _ _ _ Hc).
  - apply Hb, (ca_raw_recv _ _ _ Hc).
  - apply (ca_invalidate_callback _ _ _ Hc).
Qed.

Lemma agree_flush_suppressed cb n k :
  k <> 0 -> agree (at_level k) (flush cb n) (ret tt).
Proof.
  intros Hk s Hs. rewrite flush_suppressed by (rewrite Hs; exact Hk).
  split; [reflexivity |]. cbn. now intros s' [= <-].
Qed.

Lemma agree_flush_at_top cb n :
  keeps_level cb -> agree (at_level 0) (flush cb n) (flush_at_top cb n).
Proof.
  intros Hc s Hs. unfold flush, flush_at_top.
  replace (up_stack_reentry_level s =? 0) with true
    by (symmetry; apply Z.eqb_eq; exact Hs).
  rewrite andb_true_r. destruct (negb (invalidated s)).
  - apply (agree_flush_body (at_level 0) (at_level_stable 0) cb cb (Hc 0) n);
      [| exact Hs].
    intros v s0 H. exact H.
  - split; [reflexivity |]. cbn. now intros s' [= <-].
Qed.

(** [UseCount] turns a body that keeps depth [k + 1] into a computation that
    keeps depth [k]. *)
Lemma agree_UseCount {A} k (b1 b2 : M A) :
  agree (at_level (k + 1)) b1 b2 -> agree (at_level k) (UseCount b1) (UseCount b2).
Proof.
  intros Hb s Hs. unfold UseCount.
  destruct (Hb (set_up_stack_reentry_level (up_stack_reentry_level s + 1) s)) as [E P].
  { unfold at_level in *. cbn. lia. }
  rewrite <- E.
  destruct (b1 (set_up_stack_reentry_level (up_stack_reentry_level s + 1) s))
    as [a s1 | e s1 |]; cbn in P.
  - split; [reflexivity |]. cbn. intros s' [= <-].
    specialize (P s1 eq_refl). unfold at_level in *. cbn. lia.
  - split; [reflexivity |]. cbn. intros s' [= <-].
    specialize (P s1 eq_refl). unfold at_level in *. cbn. lia.
  - split; [reflexivity | discriminate].
Qed.

Lemma agree_up_stack k cb1 cb2 n pkt :
  CbAgree (at_level (k + 1)) cb1 cb2 ->
  agree (at_level k) (up_stack cb1 n pkt) (up_stack cb2 n pkt).
Proof.
  intros Hc. apply agree_UseCount.
  apply agree_up_stack_body; [apply at_level_stable | exact Hc].
Qed.

Lemma agree_net_recv k cb1 cb2 n pkt :
  CbAgree (at_level (k + 1)) cb1 cb2 ->
  agree (at_level k) (net_recv cb1 n pkt) (net_recv cb2 n pkt).
Proof.
  intros Hc s Hs. unfold net_recv. destruct (negb (invalidated s)).
  - now apply agree_up_stack.
  - split; [reflexivity |]. cbn. now intros s' [= <-].
Qed.

Lemma agree_start_handshake k cb1 cb2 n :
  CbAgree (at_level k) cb1 cb2 ->
  agree (at_level k) (start_handshake cb1 n) (start_handshake cb2 n).
Proof.
  intros Hc s Hs. unfold start_handshake. destruct (negb (invalidated s)).
  - revert s Hs. apply agree_bind; [apply agree_on_ssl, at_level_stable |].
    intros _. apply agree_bind.
    + apply agree_modify. intros s H. exact H.
    + intros _. apply agree_up_sequenced; [apply at_level_stable | exact Hc].
  - split; [reflexivity |]. cbn. now intros s' [= <-].
Qed.

End Depth.

(** ** Invalidation is terminal *)
Section Terminal.
Context {W : World}.
Variable cb : Callbacks.

Lemma latched_stable : Stable latched.
Proof. split; intros; solve [assumption | reflexivity]. Qed.

(** C2.  In a state whose invalidated flag is set, each of start_handshake,
    net_recv, app_send, raw_send, flush, send_pending_acks and retransmit
    returns at once with the very same state (every field unchanged, the
    flag included, no virtual method called), and next_retransmit() is the
    infinite sentinel.  Nor is the flag ever cleared inside an operation: if
    the virtual methods do not clear it, then invalidate(), up_sequenced,
    up_stack, the body of flush and the loops of send_pending_acks and
    retransmit, run from a state with the flag set, end with the flag set,
    whether they return or throw. *)
Theorem invalidated_is_terminal (s : ProtoStackBase) :
  invalidated_ s = true ->
  (forall n, start_handshake cb n s = Ok tt s) /\
  (forall n pkt, net_recv cb n pkt s = Ok tt s) /\
  (forall buf, app_send buf s = Ok tt s) /\
  (forall pkt, raw_send pkt s = Ok tt s) /\
  (forall n, flush cb n s = Ok tt s) /\
  (forall n, send_pending_acks cb n s = Ok tt s) /\
  (forall n, retransmit cb n s = Ok tt s) /\
  next_retransmit s = Time_infinite /\
  (CbAgree latched cb cb ->
   forall n pkt i s',
     res_state (invalidate cb s) = Some s' \/
     res_state (up_sequenced cb n s) = Some s' \/
     res_state (up_stack cb n pkt s) = Some s' \/
     res_state (flush_body cb n s) = Some s' \/
     res_state (ack_loop cb n s) = Some s' \/
     res_state (retransmit_loop cb n i s) = Some s' ->
     invalidated_ s' = true).
Proof.
  intros H. repeat split; intros.
  - now apply start_handshake_invalidated.
  - now apply net_recv_invalidated.
  - now apply app_send_invalidated.
  - now apply raw_send_invalidated.
  - now apply flush_invalidated.
  - now apply send_pending_acks_invalidated.
  - now apply retransmit_invalidated.
  - now apply next_retransmit_invalidated.
  - assert (K : forall (m : M unit), agree latched m m ->
                  res_state (m s) = Some s' -> invalidated_ s' = true).
    { intros m Hm Hr. destruct (Hm s H) as [_ P]. exact (P s' Hr). }
    match goal with
    | Hc : CbAgree latched cb cb, Hor : _ \/ _ |- _ =>
        destruct Hor as [Hr | [Hr | [Hr | [Hr | [Hr | Hr]]]]];
        revert Hr; apply K;
        [ apply (agree_invalidate latched latched_stable cb cb Hc)
        | apply (agree_up_sequenced latched latched_stable cb cb Hc)
        | apply (agree_up_stack_blind latched latched_stable cb cb Hc);
          intros; assumption
        | apply (agree_flush_body latched latched_stable cb cb Hc);
          intros; assumption
        | apply (agree_ack_loop latched latched_stable cb cb Hc)
        | apply (agree_retransmit_loop latched latched_stable cb cb Hc) ]
    end.
Qed.

End Terminal.

(** ** Reentrancy *)
Section Reentrancy.
Context {W : World}.
Variable cb : Callbacks.
Hypothesis Hlevel : keeps_level cb.

(** C3.  (1) A flush invoked while the depth counter is above zero returns
    the state unchanged.  (2) So does every flush that [decapsulate],
    [raw_recv] or [app_recv] invoke during net_recv: net_recv runs the same
    with a derived class that makes such calls as with one that does not.
    (3) Whatever way net_recv ends, by return or by a propagated exception
    (that of [decapsulate] included), the counter is back at its value
    before the call.  (4) A flush after a top-level net_recv that left the
    object valid is therefore not suppressed: it runs the whole of its body. *)
Theorem reentrant_flush_is_suppressed (s : ProtoStackBase) (pkt : PACKET) (n m : nat) :
  0 <= up_stack_reentry_level s ->
  (forall s1 k, up_stack_reentry_level s1 > 0 -> flush cb k s1 = Ok tt s1) /\
  net_recv (with_hook (flush cb m) cb) n pkt s = net_recv cb n pkt s /\
  (forall s', res_state (net_recv cb n pkt s) = Some s' ->
              up_stack_reentry_level s' = up_stack_reentry_level s) /\
  (forall s' k, res_state (net_recv cb n pkt s) = Some s' ->
                up_stack_reentry_level s = 0 -> invalidated_ s' = false ->
                flush cb k s' = flush_body cb k s').
Proof.
  intros Hs.
  assert (Hrestore : forall s', res_state (net_recv cb n pkt s) = Some s' ->
                                up_stack_reentry_level s' = up_stack_reentry_level s).
  { intros s' Hr.
    destruct (agree_net_recv (up_stack_reentry_level s) cb cb n pkt
                (Hlevel _) s eq_refl) as [_ P].
    exact (P s' Hr). }
  split; [| split; [| split]].
  - intros s1 k H1. apply flush_suppressed. lia.
  - apply (agree_net_recv (up_stack_reentry_level s)); [| reflexivity].
    apply agree_drop_hook; [| apply Hlevel].
    apply agree_flush_suppressed. lia.
  - exact Hrestore.
  - intros s' k Hr H0 Hv. apply flush_top_level; [exact Hv |].
    rewrite (Hrestore s' Hr). exact H0.
Qed.

(** C10.  start_handshake does not touch the depth counter: called at depth
    zero, it runs its delivery pass at depth zero throughout, so every flush
    that [raw_recv] or [app_recv] invoke during that pass behaves as flush
    does without its depth test, that is, it runs the flush body whenever the
    object is valid; and the counter is still zero when start_handshake
    ends.  net_recv is where the counter moves: on a valid object it runs
    [decapsulate] and the delivery pass from the state with the counter one
    higher, and takes that one off again when they are done. *)
Theorem start_handshake_runs_nested_flush (s : ProtoStackBase) (n m : nat) :
  up_stack_reentry_level s = 0 ->
  start_handshake (with_hook (flush cb m) cb) n s
    = start_handshake (with_hook (flush_at_top cb m) cb) n s /\
  (forall s1, up_stack_reentry_level s1 = 0 -> invalidated_ s1 = false ->
              flush cb m s1 = flush_body cb m s1) /\
  (forall s', res_state (start_handshake (with_hook (flush cb m) cb) n s) = Some s' ->
              up_stack_reentry_level s' = 0) /\
  (forall pkt,
      up_stack_reentry_level (entered pkt s) = 1 /\
      (invalidated_ s = false ->
       net_recv cb n pkt s =
         match (queued <- decapsulate cb pkt ;;
                if (queued : bool) then up_sequenced cb n else ret tt) (entered pkt s)
         with
         | Ok a s' => Ok a (departed s')
         | Throw e s' => Throw e (departed s')
         | OutOfFuel => OutOfFuel
         end)).
Proof.
  intros Hs.
  assert (Hc : CbAgree (at_level 0) (with_hook (flush cb m) cb)
                       (with_hook (flush_at_top cb m) cb)).
  { apply agree_hooks; [| apply Hlevel]. now apply agree_flush_at_top. }
  destruct (agree_start_handshake 0 _ _ n Hc s Hs) as [E P].
  split; [exact E | split; [| split]].
  - intros s1 H1 Hv. now apply flush_top_level.
  - exact P.
  - intros pkt. split.
    + unfold entered. cbn. rewrite Hs. reflexivity.
    + intros Hv. rewrite net_recv_valid by exact Hv. reflexivity.
Qed.

End Reentrancy.

(** ** The receive window and the start of the handshake *)
Section Handshake.
Context {W : World}.
Variable cb : Callbacks.

(** C9.  When the next in-order entry of the receive window is SSL
    ciphertext: (1) while the session has not started, up_sequenced returns
    the state unchanged, so that entry and all behind it stay in the window
    and nothing is delivered; (2) start_handshake on a valid object, once the
    session's own start_handshake has returned, sets ssl_started_ and goes on
    at once to that entry: it hands its buffer to write_ciphertext, advances
    the window, and continues draining. *)
Theorem ciphertext_waits_for_handshake (s : ProtoStackBase) (n : nat) :
  rr_ready (rel_recv s) = true ->
  PACKET_is_raw (rr_next_sequenced (rel_recv s)) = false ->
  (ssl_started_ s = false -> up_sequenced cb (S n) s = Ok tt s) /\
  (invalidated_ s = false ->
   forall ssl1, ssl_start_handshake (ssl_ s) = SslRet tt ssl1 ->
     start_handshake cb (S n) s =
       ((on_ssl (ssl_write_ciphertext
                   (PACKET_buffer_ptr (rr_next_sequenced (rel_recv s)))) ;;
         advance ;;
         recv_loop cb n) ;;
        cleartext_pass cb (S n))
       (set_ssl_started_ true (set_ssl_ ssl1 s))).
Proof.
  intros Hr Hraw. split.
  - intros Hst. unfold up_sequenced, bind. cbn [recv_loop].
    rewrite Hr, Hraw, Hst. unfold cleartext_pass. now rewrite Hst.
  - intros Hv ssl1 Hh. unfold start_handshake, invalidated. rewrite Hv.
    cbn [negb]. unfold bind at 1. unfold on_ssl at 1. rewrite Hh.
    unfold bind at 1. unfold modify at 1.
    unfold up_sequenced.
    set (s1 := set_ssl_started_ true (set_ssl_ ssl1 s)).
    assert (E : recv_loop cb (S n) s1 =
                (on_ssl (ssl_write_ciphertext
                           (PACKET_buffer_ptr (rr_next_sequenced (rel_recv s)))) ;;
                 advance ;; recv_loop cb n) s1).
    { cbn [recv_loop]. subst s1. cbn. rewrite Hr, Hraw. reflexivity. }
    unfold bind at 1. rewrite E. reflexivity.
Qed.

End Handshake.

(** ** Fatal and recoverable failures *)
Section Failures.
Context {W : World}.
Variable cb : Callbacks.

Lemma fatal_handler {A} tag e s1 :
  quiet_hook cb ->
  exists s', bind (stats_error tag ;; invalidate cb) (fun _ => @throw _ A e) s1
             = Throw e s' /\
             invalidated_ s' = true /\
             stats s' = record_stat tag (stats s1).
Proof.
  intros Hq. cbv [bind stats_error invalidate modify call emit throw].
  destruct (stats s1) as [st |] eqn:Est;
    match goal with
    | |- context [invalidate_callback cb ?x] =>
        destruct (Hq x) as (s' & E & Hi & Hst); rewrite E
    end;
    exists s'; (split; [reflexivity |]); (split; [rewrite Hi; reflexivity |]);
    rewrite Hst; cbn.
  - reflexivity.
  - exact Est.
Qed.

Lemma decapsulate_throw n pkt s e s1 :
  invalidated_ s = false ->
  decapsulate cb pkt (entered pkt s) = Throw e s1 ->
  net_recv cb n pkt s = Throw e (departed s1).
Proof.
  intros Hv Hd. rewrite net_recv_valid by exact Hv.
  unfold up_stack, UseCount, bind, call, emit, modify, bind.
  change (set_calls _ _) with (entered pkt s). now rewrite Hd.
Qed.

Lemma write_cleartext_throw n s buf rest e ssl1 :
  quiet_hook cb ->
  app_write_queue s = buf :: rest ->
  ssl_write_cleartext_unbuffered buf (ssl_ s) = SslThrow e ssl1 ->
  exists s', app_write_loop cb (S n) s = Throw e s' /\
             invalidated_ s' = true /\
             stats s' = record_stat SSL_ERROR (stats s).
Proof.
  intros Hq Hqu Hw. cbn [app_write_loop]. rewrite Hqu.
  unfold bind at 1. unfold catch_all, on_ssl. rewrite Hw.
  destruct (@fatal_handler Z SSL_ERROR e (set_ssl_ ssl1 s) Hq) as (s' & E & Hi & Hst).
  rewrite E. exists s'. auto.
Qed.

Lemma prepare_to_app_buf_eq s :
  prepare_to_app_buf s = Ok tt (set_to_app_buf (Some (prepared_buf s)) s).
Proof.
  cbv [prepare_to_app_buf bind modify prepared_buf deref_to_app_buf].
  destruct (to_app_buf s) as [b |] eqn:E; cbn; [rewrite E |]; reflexivity.
Qed.

Lemma read_cleartext_throw n s e ssl1 ssl2 :
  quiet_hook cb ->
  ssl_write_ciphertext_ready (ssl_ s) = SslRet true ssl1 ->
  ssl_read_cleartext (prepared_buf s) (Buffer_max_size (prepared_buf s)) ssl1
    = SslThrow e ssl2 ->
  exists s', cleartext_loop cb (S n) s = Throw e s' /\
             invalidated_ s' = true /\
             stats s' = record_stat SSL_ERROR (stats s).
Proof.
  intros Hq Hr Hrd. cbn [cleartext_loop].
  unfold bind at 1. unfold on_ssl at 1. rewrite Hr.
  unfold bind at 1. rewrite prepare_to_app_buf_eq.
  unfold bind at 1. unfold catch_all, read_cleartext_call.
  change (deref_to_app_buf (set_to_app_buf (Some ?b) _)) with b.
  change (prepared_buf (set_ssl_ ssl1 s)) with (prepared_buf s).
  change (ssl_ (set_to_app_buf _ (set_ssl_ ssl1 s))) with ssl1.
  rewrite Hrd.
  match goal with
  | |- context [bind _ _ ?x] =>
      destruct (@fatal_handler Z SSL_ERROR e x Hq) as (s' & E & Hi & Hst)
  end.
  rewrite E. exists s'. split; [reflexivity |]. split; [exact Hi |].
  rewrite Hst. reflexivity.
Qed.

Lemma encapsulate_throw id s e s1 :
  quiet_hook cb ->
  encapsulate cb id (set_calls (calls s ++ [EvEncapsulate id (packet_of id s)]) s)
    = Throw e s1 ->
  exists s', encapsulate_and_send cb id s = Throw e s' /\
             invalidated_ s' = true /\
             stats s' = record_stat ENCAPSULATION_ERROR (stats s1).
Proof.
  intros Hq He. unfold encapsulate_and_send.
  destruct (@fatal_handler unit ENCAPSULATION_ERROR e s1 Hq) as (s' & E & Hi & Hst).
  exists s'. split; [| auto].
  apply bind_throw. rewrite (catch_all_throw _ _ s e s1); [exact E |].
  rewrite call_eq. exact He.
Qed.

(** C1.  With a hook that returns:
    (1) an exception of [decapsulate] leaves net_recv as thrown; net_recv
    adds nothing to the state [decapsulate] left but the restored depth
    counter: the flag and the statistics are as [decapsulate] left them, and
    if the flag is still clear the next net_recv enters up_stack again;
    (2) an exception of write_cleartext_unbuffered leaves down_stack_app,
    (3) one of read_cleartext leaves up_sequenced, and (4) one of
    [encapsulate] leaves the encapsulate-and-send block of both down-stack
    loops (and whatever follows it), each as thrown, with the flag set and
    with the tag (SSL_ERROR, SSL_ERROR, ENCAPSULATION_ERROR) recorded in the
    statistics object if there is one; a null [stats] stays null. *)
Theorem failure_partition :
  quiet_hook cb ->
  (forall n pkt s e s1,
      invalidated_ s = false ->
      decapsulate cb pkt (entered pkt s) = Throw e s1 ->
      net_recv cb n pkt s = Throw e (departed s1) /\
      invalidated_ (departed s1) = invalidated_ s1 /\
      stats (departed s1) = stats s1 /\
      calls (departed s1) = calls s1 /\
      up_stack_reentry_level (departed s1) = up_stack_reentry_level s1 - 1 /\
      (invalidated_ s1 = false ->
       forall n' pkt', net_recv cb n' pkt' (departed s1) = up_stack cb n' pkt' (departed s1))) /\
  (forall n s buf rest e ssl1,
      ssl_started_ s = true ->
      app_write_queue s = buf :: rest ->
      ssl_write_cleartext_unbuffered buf (ssl_ s) = SslThrow e ssl1 ->
      exists s', down_stack_app cb (S n) s = Throw e s' /\
                 invalidated_ s' = true /\
                 stats s' = record_stat SSL_ERROR (stats s)) /\
  (forall n s0 s e ssl1 ssl2,
      recv_loop cb (S n) s0 = Ok tt s ->
      ssl_started_ s = true ->
      ssl_write_ciphertext_ready (ssl_ s) = SslRet true ssl1 ->
      ssl_read_cleartext (prepared_buf s) (Buffer_max_size (prepared_buf s)) ssl1
        = SslThrow e ssl2 ->
      exists s', up_sequenced cb (S n) s0 = Throw e s' /\
                 invalidated_ s' = true /\
                 stats s' = record_stat SSL_ERROR (stats s)) /\
  (forall id s e s1,
      encapsulate cb id (set_calls (calls s ++ [EvEncapsulate id (packet_of id s)]) s)
        = Throw e s1 ->
      exists s', encapsulate_and_send cb id s = Throw e s' /\
                 (forall B (k : unit -> M B),
                     bind (encapsulate_and_send cb id) k s = Throw e s') /\
                 invalidated_ s' = true /\
                 stats s' = record_stat ENCAPSULATION_ERROR (stats s1)).
Proof.
  intros Hq. split; [| split; [| split]].
  - intros n pkt s e s1 Hv Hd. split; [now apply decapsulate_throw |].
    repeat split. intros Hv1 n' pkt'. now apply net_recv_valid.
  - intros n s buf rest e ssl1 Hst Hqu Hw.
    destruct (write_cleartext_throw n s buf rest e ssl1 Hq Hqu Hw) as (s' & E & H).
    exists s'. split; [| exact H].
    unfold down_stack_app. rewrite Hst. now apply bind_throw.
  - intros n s0 s e ssl1 ssl2 Hl Hst Hr Hrd.
    destruct (read_cleartext_throw n s e ssl1 ssl2 Hq Hr Hrd) as (s' & E & H).
    exists s'. split; [| exact H].
    unfold up_sequenced. rewrite (bind_ok _ _ _ _ _ Hl).
    unfold cleartext_pass. now rewrite Hst.
  - intros id s e s1 He.
    destruct (encapsulate_throw id s e s1 Hq He) as (s' & E & Hi & Hst).
    exists s'. repeat split; try assumption.
    intros B k. now apply bind_throw.
Qed.

(** C6.  The session is called outside any handler in start_handshake and
    for every ciphertext operation.  (1) When the session's start_handshake
    throws, the exception leaves ProtoStackBase::start_handshake as thrown;
    the object is still valid, ssl_started_ is as it was, no statistic is
    recorded and no virtual method is called.  The same holds when (2)
    write_ciphertext throws in up_sequenced, (3) read_ciphertext_ready or (4)
    read_ciphertext throws in the second loop of down_stack_app (the message
    just taken from the send window stays there), and (5)
    write_ciphertext_ready throws in the second loop of up_sequenced: the
    exception leaves as thrown, and the flag, the statistics and the trace of
    calls are untouched.  Only the two cleartext operations are called inside
    a handler: with a hook that returns, (6) an exception of
    write_cleartext_unbuffered and (7) one of read_cleartext leave their loop
    as thrown with the flag set and SSL_ERROR recorded in the statistics
    object, if there is one. *)
Theorem start_handshake_failure_not_recorded :
  (forall s n e ssl1,
      invalidated_ s = false ->
      ssl_start_handshake (ssl_ s) = SslThrow e ssl1 ->
      start_handshake cb n s = Throw e (set_ssl_ ssl1 s) /\
      invalidated_ (set_ssl_ ssl1 s) = false /\
      ssl_started_ (set_ssl_ ssl1 s) = ssl_started_ s /\
      stats (set_ssl_ ssl1 s) = stats s /\
      calls (set_ssl_ ssl1 s) = calls s) /\
  (forall s n e ssl1,
      rr_ready (rel_recv s) = true ->
      PACKET_is_raw (rr_next_sequenced (rel_recv s)) = false ->
      ssl_started_ s = true ->
      ssl_write_ciphertext (PACKET_buffer_ptr (rr_next_sequenced (rel_recv s))) (ssl_ s)
        = SslThrow e ssl1 ->
      up_sequenced cb (S n) s = Throw e (set_ssl_ ssl1 s) /\
      unrecorded s (set_ssl_ ssl1 s)) /\
  (forall s n e ssl1,
      ssl_read_ciphertext_ready (ssl_ s) = SslThrow e ssl1 ->
      ciphertext_loop cb (S n) s = Throw e (set_ssl_ ssl1 s) /\
      unrecorded s (set_ssl_ ssl1 s)) /\
  (forall s n e ssl1 id rs ssl2,
      ssl_read_ciphertext_ready (ssl_ s) = SslRet true ssl1 ->
      rs_ready (rel_send s) = true ->
      rs_send (now s) (rel_send s) = (id, rs) ->
      ssl_read_ciphertext ssl1 = SslThrow e ssl2 ->
      ciphertext_loop cb (S n) s = Throw e (set_ssl_ ssl2 (set_rel_send rs s)) /\
      unrecorded s (set_ssl_ ssl2 (set_rel_send rs s))) /\
  (forall s n e ssl1,
      ssl_write_ciphertext_ready (ssl_ s) = SslThrow e ssl1 ->
      cleartext_loop cb (S n) s = Throw e (set_ssl_ ssl1 s) /\
      unrecorded s (set_ssl_ ssl1 s)) /\
  (quiet_hook cb ->
   (forall s n buf rest e ssl1,
       app_write_queue s = buf :: rest ->
       ssl_write_cleartext_unbuffered buf (ssl_ s) = SslThrow e ssl1 ->
       exists s', app_write_loop cb (S n) s = Throw e s' /\
                  invalidated_ s' = true /\
                  stats s' = record_stat SSL_ERROR (stats s)) /\
   (forall s n e ssl1 ssl2,
       ssl_write_ciphertext_ready (ssl_ s) = SslRet true ssl1 ->
       ssl_read_cleartext (prepared_buf s) (Buffer_max_size (prepared_buf s)) ssl1
         = SslThrow e ssl2 ->
       exists s', cleartext_loop cb (S n) s = Throw e s' /\
                  invalidated_ s' = true /\
                  stats s' = record_stat SSL_ERROR (stats s))).
Proof.
  split; [| split; [| split; [| split; [| split]]]].
  - intros s n e ssl1 Hv Hh. repeat split; try assumption.
    unfold start_handshake, invalidated. rewrite Hv. cbn [negb].
    unfold bind at 1. unfold on_ssl. now rewrite Hh.
  - intros s n e ssl1 Hr Hraw Hst Hw. split; [| repeat split].
    unfold up_sequenced. apply bind_throw. cbn [recv_loop].
    rewrite Hr, Hraw, Hst. apply bind_throw. unfold on_ssl. now rewrite Hw.
  - intros s n e ssl1 Hq. split; [| repeat split].
    cbn [ciphertext_loop]. apply bind_throw. unfold on_ssl. now rewrite Hq.
  - intros s n e ssl1 id rs ssl2 Hq Hroom Hsend Hrd. split; [| repeat split].
    cbn [ciphertext_loop].
    rewrite (bind_ok _ _ s true (set_ssl_ ssl1 s)) by (unfold on_ssl; now rewrite Hq).
    unfold bind at 1. unfold gets at 1.
    change (rs_ready (rel_send (set_ssl_ ssl1 s))) with (rs_ready (rel_send s)).
    rewrite Hroom. cbn [andb].
    rewrite (bind_ok _ _ _ id (set_rel_send rs (set_ssl_ ssl1 s)))
      by (unfold rel_send_send; cbn; now rewrite Hsend).
    apply bind_throw. unfold on_ssl. cbn. now rewrite Hrd.
  - intros s n e ssl1 Hq. split; [| repeat split].
    cbn [cleartext_loop]. apply bind_throw. unfold on_ssl. now rewrite Hq.
  - intros Hq. split.
    + intros s n buf rest e ssl1 Hqu Hw.
      exact (write_cleartext_throw n s buf rest e ssl1 Hq Hqu Hw).
    + intros s n e ssl1 ssl2 Hr Hrd.
      exact (read_cleartext_throw n s e ssl1 ssl2 Hq Hr Hrd).
Qed.

(** ** Back-pressure on the cleartext queue *)

Lemma app_write_loop_retry n s buf rest ssl1 :
  app_write_queue s = buf :: rest ->
  ssl_write_cleartext_unbuffered buf (ssl_ s) = SslRet SHOULD_RETRY ssl1 ->
  app_write_loop cb (S n) s = Ok tt (set_ssl_ ssl1 s).
Proof.
  intros Hqu Hw. cbn [app_write_loop]. rewrite Hqu.
  erewrite bind_ok.
  2:{ apply catch_all_ok. unfold on_ssl. rewrite Hw. reflexivity. }
  now rewrite Z.eqb_refl.
Qed.

Lemma app_write_loop_taken n s buf rest size ssl1 :
  app_write_queue s = buf :: rest ->
  ssl_write_cleartext_unbuffered buf (ssl_ s) = SslRet size ssl1 ->
  size <> SHOULD_RETRY ->
  app_write_loop cb (S n) s
    = app_write_loop cb n (set_app_write_queue rest (set_ssl_ ssl1 s)).
Proof.
  intros Hqu Hw Hsz. cbn [app_write_loop]. rewrite Hqu.
  erewrite bind_ok.
  2:{ apply catch_all_ok. unfold on_ssl. rewrite Hw. reflexivity. }
  apply Z.eqb_neq in Hsz. rewrite Hsz.
  unfold bind, modify. cbn. rewrite Hqu. reflexivity.
Qed.

Lemma app_write_loop_run n :
  forall s s', app_write_loop cb n s = Ok tt s' ->
  exists done ssl1,
    app_write_queue s = done ++ app_write_queue s' /\
    handed_off done (ssl_ s) ssl1 /\
    match app_write_queue s' with
    | [] => ssl_ s' = ssl1
    | buf :: _ =>
        ssl_write_cleartext_unbuffered buf ssl1 = SslRet SHOULD_RETRY (ssl_ s')
    end /\
    s' = set_app_write_queue (app_write_queue s') (set_ssl_ (ssl_ s') s).
Proof.
  induction n as [| n IH]; intros s s' H; [discriminate |].
  destruct (app_write_queue s) as [| buf rest] eqn:Hqu.
  - cbn [app_write_loop] in H. rewrite Hqu in H. injection H as <-.
    exists [], (ssl_ s). rewrite Hqu.
    repeat split; [constructor | rewrite <- Hqu; reflexivity].
  - destruct (ssl_write_cleartext_unbuffered buf (ssl_ s)) as [size ssl1 | e ssl1] eqn:Hw.
    + destruct (Z.eq_dec size SHOULD_RETRY) as [-> | Hsz].
      * rewrite (app_write_loop_retry n s buf rest ssl1 Hqu Hw) in H.
        injection H as <-. exists [], (ssl_ s). cbn. rewrite Hqu.
        repeat split; [constructor | exact Hw | rewrite <- Hqu; reflexivity].
      * rewrite (app_write_loop_taken n s buf rest size ssl1 Hqu Hw Hsz) in H.
        destruct (IH _ _ H) as (done & ssl2 & Hd & Hh & Hm & Hs').
        exists (buf :: done), ssl2. cbn in Hd. cbn [app]. rewrite <- Hd.
        repeat split; [econstructor; eassumption | exact Hm |].
        rewrite Hs' at 1. reflexivity.
    + exfalso. cbn [app_write_loop] in H. rewrite Hqu in H.
      unfold bind at 1 in H. erewrite catch_all_throw in H.
      2:{ unfold on_ssl. rewrite Hw. reflexivity. }
      unfold bind at 1 in H.
      destruct ((stats_error SSL_ERROR ;; invalidate cb) (set_ssl_ ssl1 s));
        discriminate.
Qed.

Lemma app_write_loop_total n :
  quiet_hook cb ->
  forall s, (length (app_write_queue s) < n)%nat ->
            app_write_loop cb n s <> OutOfFuel.
Proof.
  intros Hq. induction n as [| n IH]; intros s Hlen; [inversion Hlen |].
  destruct (app_write_queue s) as [| buf rest] eqn:Hqu.
  - cbn [app_write_loop]. rewrite Hqu. discriminate.
  - destruct (ssl_write_cleartext_unbuffered buf (ssl_ s)) as [size ssl1 | e ssl1] eqn:Hw.
    + destruct (Z.eq_dec size SHOULD_RETRY) as [-> | Hsz].
      * rewrite (app_write_loop_retry n s buf rest ssl1 Hqu Hw). discriminate.
      * rewrite (app_write_loop_taken n s buf rest size ssl1 Hqu Hw Hsz).
        apply IH. cbn in *. lia.
    + destruct (write_cleartext_throw n s buf rest e ssl1 Hq Hqu Hw) as (s' & E & _).
      rewrite E. discriminate.
Qed.

(** C5.  In the first loop of down_stack_app:
    (1) on a retry signal the loop ends and the queue is untouched: the
    buffer offered is still at the front, whole;
    (2) on any other return value, whatever the byte count, the buffer is
    popped and the loop goes on with the rest;
    (3) when the loop returns, the queue it was given is the buffers handed
    to the session, one write each and in order, followed by the queue it
    leaves; the buffer left at the front, if any, is the one whose write
    signalled the retry, and nothing but [ssl_] and the queue has changed;
    (4) the loop returns or throws when given more fuel than there are
    buffers. *)
Theorem cleartext_backpressure :
  (forall n s buf rest ssl1,
      app_write_queue s = buf :: rest ->
      ssl_write_cleartext_unbuffered buf (ssl_ s) = SslRet SHOULD_RETRY ssl1 ->
      app_write_loop cb (S n) s = Ok tt (set_ssl_ ssl1 s) /\
      app_write_queue (set_ssl_ ssl1 s) = buf :: rest) /\
  (forall n s buf rest size ssl1,
      app_write_queue s = buf :: rest ->
      ssl_write_cleartext_unbuffered buf (ssl_ s) = SslRet size ssl1 ->
      size <> SHOULD_RETRY ->
      app_write_loop cb (S n) s
        = app_write_loop cb n (set_app_write_queue rest (set_ssl_ ssl1 s))) /\
  (forall n s s',
      app_write_loop cb n s = Ok tt s' ->
      exists done ssl1,
        app_write_queue s = done ++ app_write_queue s' /\
        handed_off done (ssl_ s) ssl1 /\
        match app_write_queue s' with
        | [] => ssl_ s' = ssl1
        | buf :: _ =>
            ssl_write_cleartext_unbuffered buf ssl1 = SslRet SHOULD_RETRY (ssl_ s')
        end /\
        s' = set_app_write_queue (app_write_queue s') (set_ssl_ (ssl_ s') s)) /\
  (quiet_hook cb ->
   forall n s, (length (app_write_queue s) < n)%nat ->
               app_write_loop cb n s <> OutOfFuel).
Proof.
  split; [| split; [| split]].
  - intros n s buf rest ssl1 Hqu Hw. split; [| exact Hqu].
    now apply (app_write_loop_retry n s buf rest).
  - intros. now apply (app_write_loop_taken n s buf rest size).
  - intros n. apply app_write_loop_run.
  - intros Hq n. now apply app_write_loop_total.
Qed.

End Failures.

(** ** Retransmission *)
Section Retransmit.
Context {W : World}.
Variable cb : Callbacks.



Lemma id_succ_small i : 0 <= i -> i + 1 < id_modulus -> id_succ i = i + 1.
Proof. intros H0 H1. unfold id_succ. apply Z.mod_small. lia. Qed.


Lemma update_retransmit_current s s' :
  update_retransmit s = Ok tt s' -> deadline_current s'.
Proof. intros [= <-]. reflexivity. Qed.


(** C8.  The deadline field is assigned by update_retransmit
    and nowhere else: (1) when a flush that is not suppressed returns, and
    (2) when a retransmit that was due returns, the field equals the current
    time plus the send window's until_retransmit; (3) net_recv never assigns
    it: if the virtual methods leave the field alone, it is the same after
    net_recv as before, whatever [decapsulate] did to the send window. *)
Theorem deadline_recomputed_by_flush_and_retransmit :
  (forall n s s',
      invalidated_ s = false -> up_stack_reentry_level s = 0 ->
      flush cb n s = Ok tt s' -> deadline_current s') /\
  (forall n s s',
      invalidated_ s = false -> Time_ge (now s) (next_retransmit_ s) = true ->
      retransmit cb n s = Ok tt s' -> deadline_current s') /\
  ((forall t, CbAgree (fun s => next_retransmit_ s = t) cb cb) ->
   forall n pkt s s',
      res_state (net_recv cb n pkt s) = Some s' ->
      next_retransmit_ s' = next_retransmit_ s).
Proof.
  split; [| split].
  - intros n s s' Hv Hl H. rewrite flush_top_level in H by assumption.
    unfold flush_body in H.
    apply bind_ok_inv in H. destruct H as (_ & s1 & _ & H).
    apply bind_ok_inv in H. destruct H as (_ & s2 & _ & H).
    now apply (update_retransmit_current s2).
  - intros n s s' Hv Hd H. unfold retransmit, invalidated in H.
    rewrite Hv, Hd in H. cbn [negb andb] in H.
    apply bind_ok_inv in H. destruct H as (_ & s1 & _ & H).
    now apply (update_retransmit_current s1).
  - intros Hc n pkt s s' H. unfold net_recv in H.
    destruct (negb (invalidated s)); [| cbn in H; now injection H as <-].
    set (I := fun s0 : ProtoStackBase => next_retransmit_ s0 = next_retransmit_ s).
    assert (HI : Stable I) by (split; intros; assumption).
    destruct (agree_up_stack_blind I HI cb cb (Hc _) n pkt
                (fun v s0 H0 => H0) s eq_refl) as [_ P].
    exact (P s' H).
Qed.

End Retransmit.

(** ** The invalidation hook *)
Section Hook.
Context {W : World}.
Variable cb : Callbacks.

Lemma hook_calls_emit s :
  hook_calls (set_calls (calls s ++ [EvInvalidateCallback]) s) = S (hook_calls s).
Proof.
  unfold hook_calls. cbn. rewrite filter_app, length_app. cbn. lia.
Qed.

(** C7.  invalidate() has no latch: provided the hook makes no
    virtual call of its own, each call of invalidate(), the first or a later
    one, calls [invalidate_callback] exactly once and sets the flag, and so
    does each run of the handler of a fatal exception; the guarded public
    operations, entered with the flag set, do not call it. *)
Theorem hook_runs_once_per_invalidate :
  (forall s s', res_state (invalidate_callback cb s) = Some s' ->
                calls s' = calls s) ->
  (forall s s', res_state (invalidate cb s) = Some s' ->
                hook_calls s' = S (hook_calls s)) /\
  (forall tag s s', res_state ((stats_error tag ;; invalidate cb) s) = Some s' ->
                    hook_calls s' = S (hook_calls s)) /\
  (forall s, invalidated_ s = true ->
     forall n pkt buf,
       res_state (start_handshake cb n s) = Some s /\
       res_state (net_recv cb n pkt s) = Some s /\
       res_state (app_send buf s) = Some s /\
       res_state (raw_send pkt s) = Some s /\
       res_state (flush cb n s) = Some s /\
       res_state (send_pending_acks cb n s) = Some s /\
       res_state (retransmit cb n s) = Some s).
Proof.
  intros Hh.
  assert (Hinv : forall s s', res_state (invalidate cb s) = Some s' ->
                              hook_calls s' = S (hook_calls s)).
  { intros s s' H. unfold invalidate, bind, modify in H. rewrite call_eq in H.
    unfold hook_calls at 1. rewrite (Hh _ _ H).
    apply (hook_calls_emit (set_invalidated_ true s)). }
  split; [exact Hinv | split].
  - intros tag s s' H. unfold bind at 1 in H. unfold stats_error, modify in H.
    apply Hinv in H. rewrite H. unfold hook_calls.
    destruct (stats s); reflexivity.
  - intros s Hv n pkt buf.
    rewrite start_handshake_invalidated, net_recv_invalidated, app_send_invalidated,
      raw_send_invalidated, flush_invalidated, send_pending_acks_invalidated,
      retransmit_invalidated by exact Hv.
    repeat split.
Qed.

End Hook.

(** ** The queues *)
Section Queues.
Context {W : World}.
Variable cb : Callbacks.

Lemma run_app_send bs : forall s,
  invalidated_ s = false ->
  run_all app_send bs s = Ok tt (set_app_write_queue (app_write_queue s ++ bs) s).
Proof.
  induction bs as [| b bs IH]; intros s Hv.
  - cbn. rewrite app_nil_r. reflexivity.
  - cbn [run_all]. unfold bind, app_send at 1, invalidated. rewrite Hv. cbn [negb].
    rewrite IH by exact Hv. cbn. rewrite <- app_assoc. reflexivity.
Qed.

Lemma run_raw_send ps : forall s,
  invalidated_ s = false ->
  run_all raw_send ps s = Ok tt (set_raw_write_queue (raw_write_queue s ++ ps) s).
Proof.
  induction ps as [| p ps IH]; intros s Hv.
  - cbn. rewrite app_nil_r. reflexivity.
  - cbn [run_all]. unfold bind, raw_send at 1, invalidated. rewrite Hv. cbn [negb].
    rewrite IH by exact Hv. cbn. rewrite <- app_assoc. reflexivity.
Qed.

(** X1.  On a valid object a series of app_send calls, and likewise of
    raw_send calls, returns with the items appended to the back of the
    respective queue in the order of the calls, and with nothing else
    changed: no virtual method is called, the session, the windows and the
    other queue are untouched. *)
Theorem sends_only_enqueue (s : ProtoStackBase) (bs : list Buffer) (ps : list PACKET) :
  invalidated_ s = false ->
  run_all app_send bs s = Ok tt (set_app_write_queue (app_write_queue s ++ bs) s) /\
  run_all raw_send ps s = Ok tt (set_raw_write_queue (raw_write_queue s ++ ps) s) /\
  (run_all app_send bs ;; run_all raw_send ps) s
    = (run_all raw_send ps ;; run_all app_send bs) s.
Proof.
  intros Hv. split; [now apply run_app_send | split; [now apply run_raw_send |]].
  unfold bind. rewrite run_app_send, run_raw_send by exact Hv.
  rewrite run_raw_send by exact Hv. cbv beta iota.
  rewrite run_app_send by exact Hv. reflexivity.
Qed.

(** *** Computations that leave a part of the object alone *)

Lemma keeps_ret {A X} (f : ProtoStackBase -> X) (a : A) : keeps f (ret a).
Proof. intros s s' [= <-]. reflexivity. Qed.

Lemma keeps_gets {A X} (f : ProtoStackBase -> X) (g : ProtoStackBase -> A) :
  keeps f (gets g).
Proof. intros s s' [= <-]. reflexivity. Qed.

Lemma keeps_modify {X} (f : ProtoStackBase -> X) g :
  (forall s, f (g s) = f s) -> keeps f (modify g).
Proof. intros H s s' [= <-]. apply H. Qed.

Lemma keeps_bind {A B X} (f : ProtoStackBase -> X) (m : M A) (k : A -> M B) :
  keeps f m -> (forall a, keeps f (k a)) -> keeps f (bind m k).
Proof.
  intros Hm Hk s s' H. unfold bind in H.
  destruct (m s) as [a s1 | e s1 |] eqn:E.
  - rewrite (Hk a s1 s' H). apply Hm. now rewrite E.
  - cbn in H. injection H as <-. apply Hm. now rewrite E.
  - discriminate.
Qed.

Lemma keeps_catch_all {A X} (f : ProtoStackBase -> X) (m : M A) h :
  keeps f m -> keeps f h -> keeps f (catch_all m h).
Proof.
  intros Hm Hh s s' H. unfold catch_all in H.
  destruct (m s) as [a s1 | e s1 |] eqn:E.
  - cbn in H. injection H as <-. apply Hm. now rewrite E.
  - assert (K : keeps f (bind h (fun _ => @throw _ A e))).
    { apply keeps_bind; [exact Hh |]. intros _ s0 s0' [= <-]. reflexivity. }
    rewrite (K s1 s' H). apply Hm. now rewrite E.
  - discriminate.
Qed.

Lemma comes_back_bind {A B} (m : M A) (k : A -> M B) :
  comes_back m -> (forall a, comes_back (k a)) -> comes_back (bind m k).
Proof.
  intros Hm Hk s. unfold bind. destruct (m s) as [a s1 | e s1 |] eqn:E.
  - apply Hk.
  - discriminate.
  - now apply Hm in E.
Qed.

Lemma comes_back_catch_all {A} (m : M A) h :
  comes_back m -> comes_back h -> comes_back (catch_all m h).
Proof.
  intros Hm Hh s. unfold catch_all. destruct (m s) as [a s1 | e s1 |] eqn:E.
  - discriminate.
  - apply comes_back_bind; [exact Hh |]. intros _ s0. discriminate.
  - now apply Hm in E.
Qed.

Section Part.
Context {X : Type}.
Variable f : ProtoStackBase -> X.
Hypothesis f_calls : forall v s, f (set_calls v s) = f s.
Hypothesis f_stats : forall v s, f (set_stats v s) = f s.
Hypothesis f_invalidated : forall s, f (set_invalidated_ true s) = f s.
Hypothesis Hcb : DownKeeps f cb.

Lemma keeps_call {A} ev (m : M A) : keeps f m -> keeps f (call ev m).
Proof.
  intros Hm s s' H. rewrite call_eq in H. rewrite (Hm _ _ H). apply f_calls.
Qed.

Lemma keeps_fatal tag : keeps f (stats_error tag ;; invalidate cb).
Proof.
  apply keeps_bind.
  - apply keeps_modify. intros s. destruct (stats s); [apply f_stats | reflexivity].
  - intros _. apply keeps_bind; [apply keeps_modify, f_invalidated |].
    intros _. apply keeps_call, (dk_invalidate_callback f cb Hcb).
Qed.

Lemma keeps_encapsulate_and_send id : keeps f (encapsulate_and_send cb id).
Proof.
  apply keeps_bind.
  - apply keeps_catch_all; [| apply keeps_fatal].
    apply keeps_call, (dk_encapsulate f cb Hcb).
  - intros _. apply keeps_bind; [apply keeps_gets |].
    intros pkt. apply keeps_call, (dk_net_send f cb Hcb).
Qed.

Hypothesis f_rel_send : forall v s, f (set_rel_send v s) = f s.
Hypothesis f_raw_write_queue : forall v s, f (set_raw_write_queue v s) = f s.

Lemma keeps_down_stack_raw n : keeps f (down_stack_raw cb n).
Proof.
  induction n as [| n IH]; intros s s' H; [discriminate |].
  cbn [down_stack_raw] in H. destruct (raw_write_queue s) as [| front rest].
  - now injection H as <-.
  - destruct (rs_ready (rel_send s)); [| now injection H as <-].
    revert s s' H. apply keeps_bind.
    + intros s s' H. unfold rel_send_send in H.
      destruct (rs_send (now s) (rel_send s)) as [id rs]. cbn in H.
      injection H as <-. apply f_rel_send.
    + intros id. apply keeps_bind; [apply keeps_modify; intros s; apply f_rel_send |].
      intros _. apply keeps_bind.
      { apply keeps_modify. intros s. apply f_raw_write_queue. }
      intros _. apply keeps_bind; [apply keeps_encapsulate_and_send | intros _; exact IH].
Qed.

End Part.

Lemma comes_back_encapsulate_and_send id :
  DownComesBack cb -> comes_back (encapsulate_and_send cb id).
Proof.
  intros Hc. apply comes_back_bind.
  - apply comes_back_catch_all.
    + intros s. rewrite call_eq. apply (dc_encapsulate cb Hc).
    + apply comes_back_bind; [intros s; discriminate |].
      intros _. apply comes_back_bind; [intros s; discriminate |].
      intros _ s. rewrite call_eq. apply (dc_invalidate_callback cb Hc).
  - intros _. apply comes_back_bind; [intros s; discriminate |].
    intros pkt s. rewrite call_eq. apply (dc_net_send cb Hc).
Qed.

(** One turn of the loop of down_stack_raw, up to the call of encapsulate. *)
Lemma down_stack_raw_turn n s front rest :
  raw_write_queue s = front :: rest ->
  rs_ready (rel_send s) = true ->
  exists id s3,
    raw_write_queue s3 = rest /\
    down_stack_raw cb (S n) s
      = (encapsulate_and_send cb id ;; down_stack_raw cb n) s3.
Proof.
  intros Hq Hr. cbn [down_stack_raw]. rewrite Hq, Hr.
  unfold bind at 1. unfold rel_send_send.
  destruct (rs_send (now s) (rel_send s)) as [id rs].
  eexists id, _. split; [| reflexivity]. cbn. rewrite Hq. reflexivity.
Qed.

(** X2.  With virtual methods that return or throw and do not touch the raw
    queue, down_stack_raw, given more fuel than there are raw packets
    queued, returns or throws; when it returns, the packets it has taken
    are a prefix of the queue (the rest is still queued, in order), and it
    has stopped because the queue is empty or the send window has no room.
    With no room at the start it takes nothing. *)
Theorem down_stack_raw_drains (n : nat) :
  DownKeeps raw_write_queue cb -> DownComesBack cb ->
  forall s,
    (length (raw_write_queue s) < n)%nat ->
    down_stack_raw cb n s <> OutOfFuel /\
    (forall s', down_stack_raw cb n s = Ok tt s' ->
       (exists taken, raw_write_queue s = taken ++ raw_write_queue s') /\
       (raw_write_queue s' = [] \/ rs_ready (rel_send s') = false)) /\
    (rs_ready (rel_send s) = false -> down_stack_raw cb n s = Ok tt s).
Proof.
  intros Hk Hc. induction n as [| n IH]; intros s Hlen; [inversion Hlen |].
  destruct (raw_write_queue s) as [| front rest] eqn:Hq.
  - cbn [down_stack_raw]. rewrite Hq. split; [discriminate |]. split.
    + intros s' [= <-]. split; [exists []; now rewrite Hq | now left].
    + reflexivity.
  - destruct (rs_ready (rel_send s)) eqn:Hr.
    + destruct (down_stack_raw_turn n s front rest Hq Hr) as (id & s3 & Hq3 & E).
      rewrite E. unfold bind.
      destruct (encapsulate_and_send cb id s3) as [u s4 | e s4 |] eqn:E4.
      * assert (Hq4 : raw_write_queue s4 = rest).
        { transitivity (raw_write_queue s3); [| exact Hq3].
          apply (keeps_encapsulate_and_send raw_write_queue
                   (fun _ _ => eq_refl) (fun _ _ => eq_refl) (fun _ => eq_refl)
                   Hk id s3 s4).
          rewrite E4. reflexivity. }
        destruct (IH s4) as (Ht & Hok & _).
        { rewrite Hq4. cbn in Hlen. lia. }
        split; [exact Ht |]. split; [| discriminate].
        intros s' Hs'. destruct (Hok s' Hs') as ((taken & Htk) & Hstop).
        split; [| exact Hstop]. exists (front :: taken). cbn. rewrite <- Htk, Hq4.
        reflexivity.
      * split; [discriminate |]. split; discriminate.
      * exfalso. exact (comes_back_encapsulate_and_send id Hc s3 E4).
    + cbn [down_stack_raw]. rewrite Hq, Hr. split; [discriminate |]. split.
      * intros s' [= <-]. split; [exists []; now rewrite Hq | now right].
      * reflexivity.
Qed.

(** X3.  When the second loop of down_stack_app returns, its last act was
    to ask the session whether ciphertext is ready, and it has stopped
    because the answer was no or because the send window has no room. *)
Theorem ciphertext_loop_exit (n : nat) :
  forall s s',
    ciphertext_loop cb n s = Ok tt s' ->
    exists s0 rdy,
      ssl_read_ciphertext_ready (ssl_ s0) = SslRet rdy (ssl_ s') /\
      s' = set_ssl_ (ssl_ s') s0 /\
      (rdy = false \/ rs_ready (rel_send s') = false).
Proof.
  induction n as [| n IH]; intros s s' H; [discriminate |].
  cbn [ciphertext_loop] in H.
  apply bind_ok_inv in H. destruct H as (rdy & s1 & Hrdy & H).
  apply bind_ok_inv in H. destruct H as (room & s2 & Hroom & H).
  injection Hroom as <- <-.
  destruct (rdy && rs_ready (rel_send s1)) eqn:Hb.
  - apply bind_ok_inv in H. destruct H as (id & s3 & _ & H).
    apply bind_ok_inv in H. destruct H as (buf & s4 & _ & H).
    apply bind_ok_inv in H. destruct H as (_ & s5 & _ & H).
    apply bind_ok_inv in H. destruct H as (_ & s6 & _ & H).
    exact (IH _ _ H).
  - injection H as <-. unfold on_ssl in Hrdy.
    destruct (ssl_read_ciphertext_ready (ssl_ s)) as [r ssl1 | e ssl1] eqn:E;
      [| discriminate].
    injection Hrdy as <- <-. exists s, r. split; [exact E |]. split; [reflexivity |].
    apply andb_false_iff in Hb. exact Hb.
Qed.

End Queues.

(** ** Draining the receive window *)
Section Drain.
Context {W : World}.
Variable cb : Callbacks.

(** X4.  When the first loop of up_sequenced returns, it has stopped because
    the receive window has no in-order packet ready, or because the packet
    next in order is SSL ciphertext and the session has not started: what it
    leaves in order in the window is never a raw packet. *)
Theorem recv_loop_exit (n : nat) :
  forall s s',
    recv_loop cb n s = Ok tt s' ->
    rr_ready (rel_recv s') = false \/
    (PACKET_is_raw (rr_next_sequenced (rel_recv s')) = false /\
     ssl_started_ s' = false).
Proof.
  induction n as [| n IH]; intros s s' H; [discriminate |].
  cbn [recv_loop] in H. destruct (rr_ready (rel_recv s)) eqn:Hr.
  2:{ injection H as <-. now left. }
  destruct (PACKET_is_raw (rr_next_sequenced (rel_recv s))) eqn:Hraw.
  - apply bind_ok_inv in H. destruct H as (_ & s1 & _ & H).
    apply bind_ok_inv in H. destruct H as (_ & s2 & _ & H).
    exact (IH _ _ H).
  - destruct (ssl_started_ s) eqn:Hst.
    + apply bind_ok_inv in H. destruct H as (_ & s1 & _ & H).
      apply bind_ok_inv in H. destruct H as (_ & s2 & _ & H).
      exact (IH _ _ H).
    + injection H as <-. right. split; assumption.
Qed.

Lemma recv_loop_started n :
  (forall s s', ssl_started_ s = true -> res_state (raw_recv cb s) = Some s' ->
                ssl_started_ s' = true) ->
  forall s s',
    ssl_started_ s = true -> recv_loop cb n s = Ok tt s' -> ssl_started_ s' = true.
Proof.
  intros Hraw. induction n as [| n IH]; intros s s' Hst H; [discriminate |].
  cbn [recv_loop] in H. destruct (rr_ready (rel_recv s)).
  2:{ now injection H as <-. }
  destruct (PACKET_is_raw (rr_next_sequenced (rel_recv s))).
  - apply bind_ok_inv in H. destruct H as (u & s1 & H1 & H).
    apply bind_ok_inv in H. destruct H as (u2 & s2 & H2 & H).
    apply (IH s2 s'); [| exact H].
    unfold advance, modify in H2. injection H2 as _ E2. rewrite <- E2.
    change (ssl_started_ s1 = true). rewrite call_eq in H1.
    eapply Hraw; [| rewrite H1; reflexivity]. exact Hst.
  - rewrite Hst in H.
    apply bind_ok_inv in H. destruct H as (u & s1 & H1 & H).
    apply bind_ok_inv in H. destruct H as (u2 & s2 & H2 & H).
    apply (IH s2 s'); [| exact H].
    unfold advance, modify in H2. injection H2 as _ E2. rewrite <- E2.
    change (ssl_started_ s1 = true). unfold on_ssl in H1.
    destruct (ssl_write_ciphertext _ (ssl_ s)) as [a x | e x]; [| discriminate].
    injection H1 as _ E1. rewrite <- E1. exact Hst.
Qed.

(** X5.  With a [raw_recv] that does not reset ssl_started_, start_handshake
    on a valid object, once the session's start_handshake has returned,
    drains the receive window to the end: when its first loop returns, no
    in-order packet is left in the window, raw or ciphertext, the object
    says ssl_started(), and what remains to be done is the reading of
    cleartext. *)
Theorem start_handshake_drains (s : ProtoStackBase) (n : nat) (ssl1 : SSL) :
  (forall s0 s', ssl_started_ s0 = true -> res_state (raw_recv cb s0) = Some s' ->
                 ssl_started_ s' = true) ->
  invalidated_ s = false ->
  ssl_start_handshake (ssl_ s) = SslRet tt ssl1 ->
  forall s1,
    recv_loop cb n (set_ssl_started_ true (set_ssl_ ssl1 s)) = Ok tt s1 ->
    rr_ready (rel_recv s1) = false /\
    ssl_started s1 = true /\
    start_handshake cb n s = cleartext_loop cb n s1.
Proof.
  intros Hraw Hv Hh s1 Hl.
  assert (Hst : ssl_started_ s1 = true).
  { apply (recv_loop_started n Hraw (set_ssl_started_ true (set_ssl_ ssl1 s)) s1);
      [reflexivity | exact Hl]. }
  split; [| split; [exact Hst |]].
  - destruct (recv_loop_exit n _ _ Hl) as [H | [_ H]]; [exact H |].
    rewrite Hst in H. discriminate.
  - unfold start_handshake, invalidated. rewrite Hv. cbn [negb].
    unfold bind at 1. unfold on_ssl. rewrite Hh.
    unfold bind at 1. unfold modify. unfold up_sequenced.
    rewrite (bind_ok _ _ _ _ _ Hl). unfold cleartext_pass. now rewrite Hst.
Qed.

Lemma catch_all_ok_inv {A} (m : M A) h s a s' :
  catch_all m h s = Ok a s' -> m s = Ok a s'.
Proof.
  unfold catch_all. destruct (m s) as [a0 s0 | e s0 |]; try discriminate; [auto |].
  unfold bind. destruct (h s0); discriminate.
Qed.

Lemma read_turn s ssl1 size b ssl3 :
  ssl_write_ciphertext_ready (ssl_ s) = SslRet true ssl1 ->
  ssl_read_cleartext (prepared_buf s) (Buffer_max_size (prepared_buf s)) ssl1
    = SslRet (size, b) ssl3 ->
  forall n,
    cleartext_loop cb (S n) s
    = (if size =? SHOULD_RETRY then ret tt
       else
         modify (fun s0 =>
           set_to_app_buf (Some (Buffer_set_size size (deref_to_app_buf s0))) s0) ;;
         call (fun s0 => EvAppRecv (to_app_buf s0)) (app_recv cb) ;;
         cleartext_loop cb n)
        (set_to_app_buf (Some b) (set_ssl_ ssl3 s)).
Proof.
  intros Hq Hrd n. cbn [cleartext_loop].
  rewrite (bind_ok _ _ s true (set_ssl_ ssl1 s)) by (unfold on_ssl; now rewrite Hq).
  rewrite (bind_ok _ _ _ tt _ (prepare_to_app_buf_eq _)).
  rewrite (bind_ok _ _ _ size (set_to_app_buf (Some b) (set_ssl_ ssl3 s)));
    [reflexivity |].
  apply catch_all_ok. unfold read_cleartext_call.
  change (deref_to_app_buf (set_to_app_buf (Some ?x) _)) with x.
  change (prepared_buf (set_ssl_ ssl1 s)) with (prepared_buf s).
  change (ssl_ (set_to_app_buf _ (set_ssl_ ssl1 s))) with ssl1.
  rewrite Hrd. reflexivity.
Qed.

Lemma delivery_calls :
  keeps calls (app_recv cb) ->
  forall s evs s', delivery cb s evs s' -> calls s' = calls s ++ evs.
Proof.
  intros Ha s evs s' H. induction H as [s ssl1 Hq | s b s3 Hr | s size b s3 s5 evs s' Hr Hne H5 _ IH].
  - rewrite app_nil_r. reflexivity.
  - destruct Hr as (ssl1 & ssl3 & _ & _ & ->). rewrite app_nil_r. reflexivity.
  - destruct Hr as (ssl1 & ssl3 & _ & _ & ->).
    etransitivity; [exact IH |].
    etransitivity;
      [apply f_equal2; [exact (Ha _ s5 (f_equal res_state H5)) | reflexivity] |].
    cbn. rewrite <- app_assoc. reflexivity.
Qed.

(** X10.  The second loop of up_sequenced returns exactly along a
    [delivery]: it calls [app_recv] once for each read that did not signal a
    retry, in the order of the reads, each time with to_app_buf pointing to
    an allocated buffer (also after the application has reset the pointer)
    whose size has been set to what that read returned, and it never calls
    [app_recv] for a read that signalled a retry or when the session has no
    cleartext waiting.  With an [app_recv] that makes no virtual call of its
    own, those are all the virtual calls made. *)
Theorem cleartext_loop_delivers_chunks :
  (forall n s s',
      cleartext_loop cb n s = Ok tt s' ->
      exists evs,
        delivery cb s evs s' /\
        (keeps calls (app_recv cb) -> calls s' = calls s ++ evs)) /\
  (forall s evs s',
      delivery cb s evs s' -> cleartext_loop cb (S (length evs)) s = Ok tt s').
Proof.
  split.
  - assert (D : forall n s s', cleartext_loop cb n s = Ok tt s' ->
                  exists evs, delivery cb s evs s').
    { induction n as [| n IH]; intros s s' H; [discriminate |].
      cbn [cleartext_loop] in H.
      destruct (ssl_write_ciphertext_ready (ssl_ s)) as [rdy ssl1 | e ssl1] eqn:Hq.
      2:{ apply bind_ok_inv in H. destruct H as (r & s1 & H1 & _).
          unfold on_ssl in H1. rewrite Hq in H1. discriminate. }
      destruct rdy.
      2:{ rewrite (bind_ok _ _ s false (set_ssl_ ssl1 s)) in H
            by (unfold on_ssl; now rewrite Hq).
          injection H as <-. exists []. now apply delivery_idle. }
      destruct (ssl_read_cleartext (prepared_buf s) (Buffer_max_size (prepared_buf s)) ssl1)
        as [[size b] ssl3 | e ssl3] eqn:Hrd.
      2:{ apply bind_ok_inv in H. destruct H as (r & s1 & H1 & H).
          unfold on_ssl in H1. rewrite Hq in H1. injection H1 as <- <-.
          apply bind_ok_inv in H. destruct H as (u2 & s2 & H2 & H).
          rewrite prepare_to_app_buf_eq in H2. injection H2 as _ <-.
          apply bind_ok_inv in H. destruct H as (sz & s3 & H3 & _).
          apply catch_all_ok_inv in H3. unfold read_cleartext_call in H3.
          change (deref_to_app_buf (set_to_app_buf (Some ?x) _)) with x in H3.
          change (prepared_buf (set_ssl_ ssl1 s)) with (prepared_buf s) in H3.
          change (ssl_ (set_to_app_buf _ (set_ssl_ ssl1 s))) with ssl1 in H3.
          rewrite Hrd in H3. discriminate. }
      fold cleartext_loop in H.
      change (cleartext_loop cb (S n) s = Ok tt s') in H.
      rewrite (read_turn s ssl1 size b ssl3 Hq Hrd) in H.
      assert (Hr : read_at s size b (set_to_app_buf (Some b) (set_ssl_ ssl3 s)))
        by (exists ssl1, ssl3; auto).
      destruct (Z.eqb_spec size SHOULD_RETRY) as [-> | Hne].
      { injection H as <-. exists []. now apply delivery_retry with (b := b). }
      apply bind_ok_inv in H. destruct H as (u4 & s4 & H4 & H).
      unfold modify in H4. injection H4 as _ <-.
      apply bind_ok_inv in H. destruct H as (u5 & s5 & H5 & H).
      rewrite call_eq in H5. destruct u5.
      destruct (IH _ _ H) as (evs & Hd).
      exists (EvAppRecv (Some (Buffer_set_size size b)) :: evs).
      eapply delivery_chunk; [exact Hr | exact Hne | exact H5 | exact Hd]. }
    intros n s s' H. destruct (D n s s' H) as (evs & Hd).
    exists evs. split; [exact Hd |].
    intros Ha. now apply delivery_calls.
  - intros s evs s' H.
    induction H as [s ssl1 Hq | s b s3 Hr | s size b s3 s5 evs s' Hr Hne H5 _ IH].
    + cbn [length cleartext_loop].
      rewrite (bind_ok _ _ s false (set_ssl_ ssl1 s)) by (unfold on_ssl; now rewrite Hq).
      reflexivity.
    + destruct Hr as (ssl1 & ssl3 & Hq & Hrd & ->).
      cbn [length].
      rewrite (read_turn s ssl1 SHOULD_RETRY b ssl3 Hq Hrd).
      now rewrite Z.eqb_refl.
    + destruct Hr as (ssl1 & ssl3 & Hq & Hrd & ->).
      cbn [length].
      rewrite (read_turn s ssl1 size b ssl3 Hq Hrd).
      replace (size =? SHOULD_RETRY) with false by (symmetry; now apply Z.eqb_neq).
      rewrite (bind_ok _ _ _ tt
                 (set_to_app_buf (Some (Buffer_set_size size b))
                    (set_to_app_buf (Some b) (set_ssl_ ssl3 s)))) by reflexivity.
      rewrite (bind_ok _ _ _ tt s5) by (rewrite call_eq; exact H5).
      exact IH.
Qed.

(** *** send_pending_acks *)

Lemma ack_loop_drains n :
  forall s s', ack_loop cb n s = Ok tt s' -> ra_empty (xmit_acks s') = true.
Proof.
  induction n as [| n IH]; intros s s' H; [discriminate |].
  cbn [ack_loop] in H. destruct (ra_empty (xmit_acks s)) eqn:He; cbn [negb] in H.
  - now injection H as <-.
  - apply bind_ok_inv in H. destruct H as (_ & s1 & _ & H).
    apply bind_ok_inv in H. destruct H as (_ & s2 & _ & H).
    apply bind_ok_inv in H. destruct H as (pkt & s3 & _ & H).
    apply bind_ok_inv in H. destruct H as (_ & s4 & _ & H).
    exact (IH _ _ H).
Qed.

Lemma ack_loop_rounds n :
  keeps calls (generate_ack cb) -> (forall p, keeps calls (net_send cb p)) ->
  forall s s', ack_loop cb n s = Ok tt s' ->
               exists evs, calls s' = calls s ++ evs /\ ack_rounds evs.
Proof.
  intros Hg Hn. induction n as [| n IH]; intros s s' H; [discriminate |].
  cbn [ack_loop] in H. destruct (ra_empty (xmit_acks s)); cbn [negb] in H.
  - injection H as <-. exists []. rewrite app_nil_r. split; [reflexivity | constructor].
  - apply bind_ok_inv in H. destruct H as (u1 & s1 & H1 & H).
    apply bind_ok_inv in H. destruct H as (u2 & s2 & H2 & H).
    apply bind_ok_inv in H. destruct H as (pkt & s3 & H3 & H).
    apply bind_ok_inv in H. destruct H as (u4 & s4 & H4 & H).
    unfold modify in H1. injection H1 as _ E1. subst s1.
    unfold gets in H3. injection H3 as Ep E3. subst s3 pkt.
    rewrite call_eq in H2, H4.
    assert (E2 : calls s2 = calls s ++ [EvGenerateAck
                   (PACKET_frame_prepare (frame_ s) WRITE_ACK_STANDALONE (ack_send_buf s))])
      by exact (Hg _ s2 (f_equal res_state H2)).
    assert (E4 : calls s4 = calls s2 ++ [EvNetSend (ack_send_buf s2)])
      by exact (Hn _ _ s4 (f_equal res_state H4)).
    destruct (IH _ _ H) as (evs & Hc & Hr).
    exists (EvGenerateAck
              (PACKET_frame_prepare (frame_ s) WRITE_ACK_STANDALONE (ack_send_buf s))
            :: EvNetSend (ack_send_buf s2) :: evs).
    split; [| constructor; exact Hr].
    etransitivity; [exact Hc |]. etransitivity; [apply f_equal2; [exact E4 | reflexivity] |].
    etransitivity; [apply f_equal2; [apply f_equal2; [exact E2 | reflexivity] | reflexivity] |].
    rewrite <- !app_assoc. reflexivity.
Qed.

(** X6.  On a valid object, when send_pending_acks returns, the pending-ACK
    list is empty; and if [generate_ack] and [net_send] make no virtual call
    of their own, the virtual calls it has made are rounds of one
    generate_ack followed by one net_send: as many standalone ACK packets
    are transmitted as are generated, and none when the list was empty at
    the start. *)
Theorem send_pending_acks_drains (s s' : ProtoStackBase) (n : nat) :
  invalidated_ s = false ->
  send_pending_acks cb n s = Ok tt s' ->
  ra_empty (xmit_acks s') = true /\
  (ra_empty (xmit_acks s) = true -> s' = s) /\
  (keeps calls (generate_ack cb) -> (forall p, keeps calls (net_send cb p)) ->
   exists evs, calls s' = calls s ++ evs /\ ack_rounds evs).
Proof.
  intros Hv H. unfold send_pending_acks, invalidated in H. rewrite Hv in H.
  cbn [negb] in H. split; [exact (ack_loop_drains n _ _ H) | split].
  - intros He. destruct n as [| n]; [discriminate |].
    cbn [ack_loop] in H. rewrite He in H. cbn [negb] in H. now injection H as <-.
  - intros Hg Hn. exact (ack_loop_rounds n Hg Hn _ _ H).
Qed.

End Drain.

(** ** Flush before the handshake, and after a fatal failure *)
Section FlushEdges.
Context {W : World}.
Variable cb : Callbacks.

(** X7.  While the session has not started, a flush, however it ends, does
    not touch the cleartext side: with an [encapsulate], a [net_send] and a
    hook that leave them alone, the cleartext queue, the SSL object and
    ssl_started_ are after the flush what they were before.  Cleartext given
    to app_send before start_handshake waits in the queue. *)
Theorem flush_before_handshake_holds_cleartext (s : ProtoStackBase) (n : nat) :
  DownKeeps cleartext_side cb ->
  ssl_started_ s = false ->
  forall s', res_state (flush cb n s) = Some s' ->
    app_write_queue s' = app_write_queue s /\
    ssl_ s' = ssl_ s /\
    ssl_started_ s' = false.
Proof.
  intros Hk Hst s' H.
  assert (K : cleartext_side s' = cleartext_side s).
  { unfold flush in H.
    destruct (negb (invalidated s) && (up_stack_reentry_level s =? 0));
      [| cbn in H; now injection H as <-].
    unfold flush_body in H. unfold bind at 1 in H.
    assert (Hraw := keeps_down_stack_raw cb cleartext_side
                      (fun _ _ => eq_refl) (fun _ _ => eq_refl) (fun _ => eq_refl) Hk
                      (fun _ _ => eq_refl) (fun _ _ => eq_refl) n s).
    destruct (down_stack_raw cb n s) as [u s1 | e s1 |]; cbn in Hraw.
    - specialize (Hraw s1 eq_refl).
      assert (Hst1 : ssl_started_ s1 = false).
      { unfold cleartext_side in Hraw. injection Hraw as _ _ ->. exact Hst. }
      unfold bind, down_stack_app in H. rewrite Hst1 in H.
      cbn in H. injection H as <-. exact Hraw.
    - cbn in H. injection H as <-. exact (Hraw s1 eq_refl).
    - discriminate. }
  unfold cleartext_side in K. injection K as -> -> ->. auto.
Qed.

(** X8.  A flush on a valid object, at top level, with nothing in the raw
    queue and a started session that throws on the write of the first
    cleartext buffer, leaves as thrown and leaves the object dead: the flag is
    set, every later flush, net_recv, app_send, raw_send, start_handshake,
    send_pending_acks and retransmit returns at once with the state
    unchanged, and next_retransmit() is the infinite sentinel. *)
Theorem fatal_write_kills_object
    (s : ProtoStackBase) (n : nat) (buf : Buffer) (rest : list Buffer)
    (e : exn) (ssl1 : SSL) :
  quiet_hook cb ->
  invalidated_ s = false -> up_stack_reentry_level s = 0 ->
  raw_write_queue s = [] -> ssl_started_ s = true ->
  app_write_queue s = buf :: rest ->
  ssl_write_cleartext_unbuffered buf (ssl_ s) = SslThrow e ssl1 ->
  exists s',
    flush cb (S n) s = Throw e s' /\
    invalidated s' = true /\
    next_retransmit s' = Time_infinite /\
    (forall k pkt b,
        flush cb k s' = Ok tt s' /\ net_recv cb k pkt s' = Ok tt s' /\
        app_send b s' = Ok tt s' /\ raw_send pkt s' = Ok tt s' /\
        start_handshake cb k s' = Ok tt s' /\
        send_pending_acks cb k s' = Ok tt s' /\ retransmit cb k s' = Ok tt s').
Proof.
  intros Hq Hv Hl Hraw Hst Hqu Hw.
  destruct (write_cleartext_throw cb n s buf rest e ssl1 Hq Hqu Hw) as (s' & E & Hi & _).
  exists s'. split.
  - rewrite flush_top_level by assumption. unfold flush_body.
    assert (E0 : down_stack_raw cb (S n) s = Ok tt s).
    { cbn [down_stack_raw]. now rewrite Hraw. }
    rewrite (bind_ok _ _ _ _ _ E0). apply bind_throw.
    unfold down_stack_app. rewrite Hst. now apply bind_throw.
  - split; [exact Hi |]. split; [now apply next_retransmit_invalidated |].
    intros k pkt b.
    rewrite flush_invalidated, net_recv_invalidated, app_send_invalidated,
      raw_send_invalidated, start_handshake_invalidated,
      send_pending_acks_invalidated, retransmit_invalidated by exact Hi.
    repeat split.
Qed.

Lemma retransmit_loop_none_ready k :
  forall i n s,
    0 <= i -> rs_tail_id (rel_send s) < id_modulus ->
    (Z.to_nat (rs_tail_id (rel_send s) - i) <= k)%nat -> (k < n)%nat ->
    (forall j, i <= j < rs_tail_id (rel_send s) ->
               msg_ready_retransmit (now s) (rs_ref_by_id j (rel_send s)) = false) ->
    retransmit_loop cb n i s = Ok tt s.
Proof.
  induction k as [| k IH]; intros i n s Hi Hm Hk Hn Hnr.
  - destruct n as [| n]; [inversion Hn |]. cbn [retransmit_loop].
    replace (i <? rs_tail_id (rel_send s)) with false
      by (symmetry; apply Z.ltb_ge; lia).
    reflexivity.
  - destruct n as [| n]; [inversion Hn |]. cbn [retransmit_loop].
    destruct (Z.ltb_spec i (rs_tail_id (rel_send s))) as [Hlt | Hge]; [| reflexivity].
    rewrite (Hnr i) by lia. rewrite id_succ_small by lia.
    change ((ret tt ;; retransmit_loop cb n (i + 1)) s)
      with (retransmit_loop cb n (i + 1) s).
    apply IH; try lia. intros j Hj. apply Hnr. lia.
Qed.

(** X9.  A retransmit() that is due on a valid object whose send window
    holds no message ready for retransmission (an empty window, or one whose
    messages were all acknowledged or are not yet due) calls no virtual
    method and changes nothing but the deadline field, which it recomputes. *)
Theorem retransmit_with_nothing_ready (s : ProtoStackBase) (n : nat) :
  invalidated_ s = false ->
  Time_ge (now s) (next_retransmit_ s) = true ->
  0 <= rs_head_id (rel_send s) -> rs_tail_id (rel_send s) < id_modulus ->
  (Z.to_nat (rs_tail_id (rel_send s) - rs_head_id (rel_send s)) < n)%nat ->
  none_ready s ->
  retransmit cb n s = Ok tt (with_deadline s) /\
  calls (with_deadline s) = calls s /\
  rel_send (with_deadline s) = rel_send s /\
  deadline_current (with_deadline s).
Proof.
  intros Hv Hd Hh Hm Hn Hnr. split; [| repeat split].
  unfold retransmit, invalidated. rewrite Hv, Hd. cbn [negb andb].
  rewrite (bind_ok _ _ _ tt s); [reflexivity |].
  apply (retransmit_loop_none_ready
           (Z.to_nat (rs_tail_id (rel_send s) - rs_head_id (rel_send s))));
    try assumption; try lia.
Qed.

End FlushEdges.

(** * The instance is well behaved, and the theorems at concrete inputs *)
Module SimFacts.
Import Sim.
#[local] Existing Instance world.

(** *** The derived class is well behaved *)

Lemma cb_quiet : quiet_hook cb.
Proof. intros s. exists s. repeat split. Qed.

Lemma cb_hook_silent :
  forall s s', res_state (invalidate_callback cb s) = Some s' -> calls s' = calls s.
Proof. intros s s' H. cbn in H. now injection H as <-. Qed.


(** The virtual methods assign to the windows, the ack list, the ack buffer
    and the derived members only. *)
Lemma cb_agree (I : ProtoStackBase -> Prop) :
  Stable I ->
  (forall v s, I s -> I (set_xmit_acks v s)) ->
  (forall v s, I s -> I (set_derived v s)) ->
  CbAgree I cb cb.
Proof.
  intros HI Hx Hd. split; cbn.
  - intros id s Hs. split; [reflexivity |]. unfold d_encapsulate.
    destruct (encaps_fail (derived s)); cbn; intros s' [= <-]; [assumption |].
    now apply Hx, (st_rel_send I HI).
  - intros pkt s Hs. split; [reflexivity |]. unfold d_decapsulate.
    destruct (p_id pkt) as [i |].
    + destruct (rw_insert i pkt (rel_recv s)) as [queued rw]. cbn.
      intros s' [= <-]. now apply Hx, (st_rel_recv I HI), (st_rel_send I HI).
    + destruct (p_acks pkt); cbn; intros s' [= <-]; [assumption |].
      now apply (st_rel_send I HI).
  - intros s Hs. split; [reflexivity |]. cbn. intros s' [= <-].
    now apply Hx, (st_ack_send_buf I HI).
  - intros pkt s Hs. split; [reflexivity |]. cbn. intros s' [= <-]. now apply Hd.
  - intros s Hs. split; [reflexivity |]. cbn. intros s' [= <-]. now apply Hd.
  - intros s Hs. split; [reflexivity |]. cbn. intros s' [= <-]. now apply Hd.
  - apply agree_ret.
Qed.

Lemma cb_keeps_level : keeps_level cb.
Proof.
  intros k. apply cb_agree; [apply at_level_stable | |]; intros v s H; exact H.
Qed.

Lemma cb_keeps_latch : CbAgree latched cb cb.
Proof.
  apply cb_agree; [apply latched_stable | |]; intros; assumption.
Qed.

Lemma cb_keeps_deadline t : CbAgree (fun s => next_retransmit_ s = t) cb cb.
Proof.
  apply cb_agree; [split | |]; intros; assumption.
Qed.

(** *** The send window obeys the laws *)






(** *** The theorems at these inputs *)

Lemma failure_partition_witness :
  quiet_hook cb /\
  (net_recv cb 5 empty_pkt fresh
     = Throw BadPacket (set_calls (W := world) [EvDecapsulate empty_pkt] fresh) /\
   invalidated_ (set_calls (W := world) [EvDecapsulate empty_pkt] fresh) = false /\
   raw_delivered
     (derived
        (state_after
           (net_recv cb 5 rawin0
              (set_calls (W := world) [EvDecapsulate empty_pkt] fresh))))
     = [rawin0]) /\
  (exists s', down_stack_app cb 1 write_fails = Throw SslFailure s' /\
              invalidated_ s' = true /\ stats s' = Some [SSL_ERROR]).
Proof.
  split; [exact cb_quiet |].
  destruct (failure_partition cb cb_quiet) as (Hd & Hw & _).
  split.
  - destruct (Hd 5%nat empty_pkt fresh BadPacket
                 (entered (W := world) empty_pkt fresh) eq_refl eq_refl)
      as (E & _).
    split; [exact E | split; reflexivity].
  - exact (Hw 0%nat write_fails [1; 2; 3] [] SslFailure (ssl_ write_fails)
              eq_refl eq_refl eq_refl).
Defined.

(** With a null [stats], the exception of [encapsulate] invalidates the
    object and leaves flush, but no statistic is recorded. *)
Lemma null_stats_record_nothing :
  encapsulate cb 0
    (set_calls (W := world) [EvEncapsulate 0 raw1]
       (state_after ((rel_send_send ;; assign_packet 0 raw1 ;;
                      modify (set_raw_write_queue (W := world) [])) no_stats)))
    = Throw EncapFailure
        (set_calls (W := world) [EvEncapsulate 0 raw1]
           (state_after ((rel_send_send ;; assign_packet 0 raw1 ;;
                          modify (set_raw_write_queue (W := world) [])) no_stats))) /\
  exists s', flush cb 5 no_stats = Throw EncapFailure s' /\
             invalidated_ s' = true /\
             ~ stat_recorded ENCAPSULATION_ERROR no_stats s'.
Proof.
  split; [reflexivity |].
  eexists. split; [reflexivity |]. split; [reflexivity |].
  intros (st & H & _). discriminate H.
Qed.

Lemma invalidated_is_terminal_witness :
  invalidated_ dead = true /\
  flush cb 5 dead = Ok tt dead /\
  net_recv cb 5 rawin0 dead = Ok tt dead /\
  next_retransmit dead = Never /\
  invalidated_ (state_after (flush_body cb 5 dead)) = true.
Proof.
  split; [reflexivity |].
  destruct (invalidated_is_terminal cb dead eq_refl)
    as (_ & Hn & _ & _ & Hf & _ & _ & Hr & Hl).
  split; [apply Hf | split; [apply Hn | split; [exact Hr |]]].
  apply (Hl cb_keeps_latch 5%nat rawin0 0).
  right. right. right. left. reflexivity.
Defined.

Lemma reentrant_flush_is_suppressed_witness :
  keeps_level cb /\
  0 <= up_stack_reentry_level with_raw_queued /\
  net_recv flushing 5 rawin0 with_raw_queued = net_recv cb 5 rawin0 with_raw_queued /\
  raw_write_queue (state_after (net_recv flushing 5 rawin0 with_raw_queued)) = [raw1].
Proof.
  split; [exact cb_keeps_level |]. split; [cbn; lia |].
  assert (H0 : 0 <= up_stack_reentry_level with_raw_queued) by (cbn; lia).
  destruct (reentrant_flush_is_suppressed cb cb_keeps_level
              with_raw_queued rawin0 5 5 H0) as (_ & E & _).
  split; [exact E | reflexivity].
Defined.

Lemma start_handshake_runs_nested_flush_witness :
  keeps_level cb /\
  up_stack_reentry_level raw_held = 0 /\
  start_handshake flushing 5 raw_held
    = start_handshake (with_hook (flush_at_top cb 5) cb) 5 raw_held /\
  wire (derived (state_after (start_handshake flushing 5 raw_held)))
    = [mkPkt true (Some 0) [] [7; 8]].
Proof.
  split; [exact cb_keeps_level |]. split; [reflexivity |].
  destruct (start_handshake_runs_nested_flush cb cb_keeps_level raw_held 5 5 eq_refl)
    as (E & _).
  split; [exact E | reflexivity].
Defined.

(** The same nested flush during net_recv sends nothing. *)
Example nested_flush_in_net_recv_sends_nothing :
  wire (derived (state_after (net_recv flushing 5 rawin0 with_raw_queued))) = [] /\
  raw_delivered (derived (state_after (net_recv flushing 5 rawin0 with_raw_queued)))
    = [rawin0].
Proof. split; reflexivity. Qed.



Lemma cleartext_backpressure_witness :
  app_write_loop cb 1 stalled = Ok tt stalled /\
  app_write_queue stalled = [[1; 2; 3]; [4]].
Proof.
  destruct (cleartext_backpressure cb) as (H & _).
  exact (H 0%nat stalled [1; 2; 3] [[4]] (ssl_ stalled) eq_refl eq_refl).
Defined.

(** A write that takes two of three bytes: the buffer is popped, and the
    third byte is neither in the queue nor with the session. *)
Lemma partial_write_drops_bytes :
  ssl_write_cleartext_unbuffered [1; 2; 3] (ssl_ chunky)
    = SslRet 2 (mkSession false false false 7 (Some 2%nat) [[1; 2]] []) /\
  2 <> SHOULD_RETRY /\
  exists s', app_write_loop cb 2 chunky = Ok tt s' /\
             app_write_queue s' = [] /\
             outbox (ssl_ s') = [[1; 2]].
Proof.
  split; [reflexivity |]. split; [discriminate |].
  eexists. repeat split.
Qed.

Lemma start_handshake_failure_not_recorded_witness :
  invalidated_ handshake_fails = false /\
  ssl_start_handshake (ssl_ handshake_fails) = SslThrow SslFailure (ssl_ handshake_fails) /\
  start_handshake cb 5 handshake_fails = Throw SslFailure handshake_fails /\
  invalidated_ handshake_fails = false /\
  stats handshake_fails = Some [] /\
  up_sequenced cb 5 ciphertext_fails = Throw SslFailure ciphertext_fails /\
  ciphertext_loop cb 5 queries_fail = Throw SslFailure queries_fail /\
  (exists s', ciphertext_loop cb 5 ciphertext_fails = Throw SslFailure s' /\
              unrecorded ciphertext_fails s') /\
  cleartext_loop cb 5 queries_fail = Throw SslFailure queries_fail /\
  quiet_hook cb /\
  (exists s', app_write_loop cb 1 write_fails = Throw SslFailure s' /\
              invalidated_ s' = true /\ stats s' = Some [SSL_ERROR]) /\
  (exists s', cleartext_loop cb 1 read_fails = Throw SslFailure s' /\
              invalidated_ s' = true /\ stats s' = Some [SSL_ERROR]).
Proof.
  split; [reflexivity |]. split; [reflexivity |].
  destruct (start_handshake_failure_not_recorded cb) as (H1 & H2 & H3 & H4 & H5 & H6).
  destruct (H1 handshake_fails 5%nat SslFailure (ssl_ handshake_fails) eq_refl eq_refl)
    as (E & Hi & _ & Hs & _).
  split; [exact E |]. split; [exact Hi |]. split; [exact Hs |].
  split; [| split; [| split; [| split; [| split; [| split]]]]].
  - exact (proj1 (H2 ciphertext_fails 4%nat SslFailure (ssl_ ciphertext_fails)
                     eq_refl eq_refl eq_refl eq_refl)).
  - exact (proj1 (H3 queries_fail 4%nat SslFailure (ssl_ queries_fail) eq_refl)).
  - eexists.
    exact (H4 ciphertext_fails 4%nat SslFailure (ssl_ ciphertext_fails) _ _
              (ssl_ ciphertext_fails) eq_refl eq_refl eq_refl eq_refl).
  - exact (proj1 (H5 queries_fail 4%nat SslFailure (ssl_ queries_fail) eq_refl)).
  - exact cb_quiet.
  - exact (proj1 (H6 cb_quiet) write_fails 0%nat [1; 2; 3] [] SslFailure
             (ssl_ write_fails) eq_refl eq_refl).
  - exact (proj2 (H6 cb_quiet) read_fails 0%nat SslFailure
             (ssl_ read_fails) (ssl_ read_fails) eq_refl eq_refl).
Defined.

(** The session's start_handshake throws: the exception reaches the caller,
    but SSL_ERROR is not recorded and the object is not invalidated; a
    later start_handshake on a session that has recovered goes through.  A
    failure of write_ciphertext is not fatal either, whereas one of
    write_cleartext_unbuffered is. *)
Lemma handshake_failure_is_not_fatal :
  invalidated_ handshake_fails = false /\
  stats handshake_fails = Some [] /\
  (exists s',
     start_handshake cb 5 handshake_fails = Throw SslFailure s' /\
     invalidated_ s' = false /\
     stats s' = Some [] /\
     ~ stat_recorded SSL_ERROR handshake_fails s' /\
     exists s'',
       start_handshake cb 5 (set_ssl_ (W := world) fresh_session s') = Ok tt s'' /\
       ssl_started s'' = true) /\
  (exists s',
     up_sequenced cb 5 ciphertext_fails = Throw SslFailure s' /\
     invalidated_ s' = false /\ stats s' = Some []) /\
  (exists s',
     flush cb 5 write_fails = Throw SslFailure s' /\
     invalidated_ s' = true /\ stats s' = Some [SSL_ERROR]).
Proof.
  split; [reflexivity |]. split; [reflexivity |]. split; [| split].
  - eexists. split; [reflexivity |]. split; [reflexivity |]. split; [reflexivity |].
    split.
    + intros (st & H & H'). cbn in H, H'. injection H as <-. discriminate H'.
    + eexists. split; reflexivity.
  - eexists. repeat split.
  - eexists. repeat split.
Qed.

Lemma hook_runs_once_per_invalidate_witness :
  (forall s s', res_state (invalidate_callback cb s) = Some s' -> calls s' = calls s) /\
  hook_calls (state_after (invalidate cb fresh)) = 1%nat.
Proof.
  split; [exact cb_hook_silent |].
  destruct (hook_runs_once_per_invalidate cb cb_hook_silent) as (H & _).
  exact (H fresh (state_after (invalidate cb fresh)) eq_refl).
Defined.

(** A second invalidate() calls the hook a second time. *)
Lemma second_invalidate_calls_hook_again :
  exists s1 s2,
    invalidate cb fresh = Ok tt s1 /\ invalidated_ s1 = true /\
    hook_calls s1 = 1%nat /\
    invalidate cb s1 = Ok tt s2 /\
    hook_calls s2 = 2%nat.
Proof. do 2 eexists. repeat split. Qed.

Lemma deadline_recomputed_witness :
  invalidated_ with_raw_queued = false /\
  up_stack_reentry_level with_raw_queued = 0 /\
  flush cb 5 with_raw_queued = Ok tt sent_one /\
  deadline_current sent_one /\
  next_retransmit_ sent_one = At 12.
Proof.
  split; [reflexivity |]. split; [reflexivity |].
  destruct (deadline_recomputed_by_flush_and_retransmit cb) as (H & _).
  split; [reflexivity |]. split; [| reflexivity].
  exact (H 5%nat with_raw_queued sent_one eq_refl eq_refl eq_refl).
Defined.

(** An ACK taken in by net_recv retires message 0, and the deadline field
    is left at the value computed for the window before. *)
Lemma ack_leaves_deadline_stale :
  deadline_current sent_one /\
  exists s', net_recv cb 5 ack0 sent_one = Ok tt s' /\
             sm_live (sw_ref 0 (rel_send sent_one)) = true /\
             sm_live (sw_ref 0 (rel_send s')) = false /\
             next_retransmit_ s' = At 12 /\
             Time_plus (now s') (rs_until_retransmit (now s') (rel_send s')) = Never /\
             ~ deadline_current s'.
Proof.
  split; [reflexivity |].
  eexists. split; [reflexivity |]. repeat split. discriminate.
Qed.

Lemma ciphertext_waits_for_handshake_witness :
  rr_ready (rel_recv held) = true /\
  PACKET_is_raw (rr_next_sequenced (rel_recv held)) = false /\
  ssl_started_ held = false /\
  up_sequenced cb 1 held = Ok tt held /\
  delivered (derived (state_after (start_handshake cb 5 held))) = [[4; 5]].
Proof.
  split; [reflexivity |]. split; [reflexivity |]. split; [reflexivity |].
  destruct (ciphertext_waits_for_handshake cb held 0 eq_refl eq_refl) as (H & _).
  split; [exact (H eq_refl) | reflexivity].
Defined.

(** *** More of the derived class, and further theorems at concrete inputs *)

Lemma cb_down_keeps {X} (f : ProtoStackBase -> X) :
  (forall v s, f (set_rel_send v s) = f s) ->
  (forall v s, f (set_xmit_acks v s) = f s) ->
  (forall v s, f (set_derived v s) = f s) ->
  DownKeeps f cb.
Proof.
  intros Hs Hx Hd. split; cbn.
  - intros id s s' H. unfold d_encapsulate in H.
    destruct (encaps_fail (derived s)); cbn in H; injection H as <-; [reflexivity |].
    now rewrite Hx, Hs.
  - intros pkt s s' H. cbn in H. injection H as <-. apply Hd.
  - intros s s' H. cbn in H. now injection H as <-.
Qed.

Lemma cb_down_comes_back : DownComesBack cb.
Proof.
  split; cbn.
  - intros id s. unfold d_encapsulate. destruct (encaps_fail (derived s)); discriminate.
  - intros pkt s. discriminate.
  - intros s. discriminate.
Qed.

Lemma cb_generate_ack_silent : keeps calls (generate_ack cb).
Proof. intros s s' H. cbn in H. now injection H as <-. Qed.

Lemma cb_net_send_silent pkt : keeps calls (net_send cb pkt).
Proof. intros s s' H. cbn in H. now injection H as <-. Qed.

Lemma cb_app_recv_silent : keeps calls (app_recv cb).
Proof. intros s s' H. cbn in H. now injection H as <-. Qed.

Lemma cb_raw_recv_started :
  forall s s', ssl_started_ s = true -> res_state (raw_recv cb s) = Some s' ->
               ssl_started_ s' = true.
Proof. intros s s' Hst H. cbn in H. injection H as <-. exact Hst. Qed.

Lemma sends_only_enqueue_witness :
  invalidated_ with_raw_queued = false /\
  run_all (app_send (W := world)) [[1]; [2]] with_raw_queued = Ok tt early_send.
Proof.
  split; [reflexivity |].
  destruct (sends_only_enqueue with_raw_queued [[1]; [2]] [] eq_refl) as (E & _).
  exact E.
Defined.

Lemma down_stack_raw_drains_witness :
  DownKeeps raw_write_queue cb /\ DownComesBack cb /\
  (length (raw_write_queue five_raw) < 6)%nat /\
  raw_write_queue (state_after (down_stack_raw cb 6 five_raw)) = [raw1] /\
  (raw_write_queue (state_after (down_stack_raw cb 6 five_raw)) = [] \/
   rs_ready (rel_send (state_after (down_stack_raw cb 6 five_raw))) = false).
Proof.
  assert (Hk : DownKeeps raw_write_queue cb)
    by (apply cb_down_keeps; intros; reflexivity).
  assert (Hlen : (length (raw_write_queue five_raw) < 6)%nat) by (cbn; lia).
  split; [exact Hk |]. split; [exact cb_down_comes_back |]. split; [exact Hlen |].
  split; [reflexivity |].
  destruct (down_stack_raw_drains cb 6 Hk cb_down_comes_back five_raw Hlen)
    as (_ & Hok & _).
  exact (proj2 (Hok (state_after (down_stack_raw cb 6 five_raw)) eq_refl)).
Defined.

Lemma ciphertext_loop_exit_witness :
  ciphertext_loop cb 5 cipher_pending
    = Ok tt (state_after (ciphertext_loop cb 5 cipher_pending)) /\
  wire (derived (state_after (ciphertext_loop cb 5 cipher_pending)))
    = [mkPkt false (Some 0) [] [1]; mkPkt false (Some 1) [] [2]] /\
  exists s0 rdy,
    ssl_read_ciphertext_ready (ssl_ s0)
      = SslRet rdy (ssl_ (state_after (ciphertext_loop cb 5 cipher_pending))) /\
    (rdy = false \/
     rs_ready (rel_send (state_after (ciphertext_loop cb 5 cipher_pending))) = false).
Proof.
  split; [reflexivity |]. split; [reflexivity |].
  destruct (ciphertext_loop_exit cb 5 cipher_pending
              (state_after (ciphertext_loop cb 5 cipher_pending)) eq_refl)
    as (s0 & rdy & E & _ & Hstop).
  exists s0, rdy. split; [exact E | exact Hstop].
Defined.

Lemma recv_loop_exit_witness :
  recv_loop cb 5 held = Ok tt held /\
  (rr_ready (rel_recv held) = false \/
   (PACKET_is_raw (rr_next_sequenced (rel_recv held)) = false /\
    ssl_started_ held = false)).
Proof.
  split; [reflexivity |].
  exact (recv_loop_exit cb 5 held held eq_refl).
Defined.

Lemma start_handshake_drains_witness :
  invalidated_ held = false /\
  ssl_start_handshake (ssl_ held) = SslRet tt fresh_session /\
  rr_ready
    (rel_recv
       (state_after
          (recv_loop cb 5 (set_ssl_started_ true (set_ssl_ (W := world) fresh_session held)))))
    = false.
Proof.
  split; [reflexivity |]. split; [reflexivity |].
  destruct (start_handshake_drains cb held 5 fresh_session cb_raw_recv_started
              eq_refl eq_refl
              (state_after
                 (recv_loop cb 5
                    (set_ssl_started_ true (set_ssl_ (W := world) fresh_session held))))
              eq_refl) as (H & _).
  exact H.
Defined.

Lemma cleartext_loop_delivers_chunks_witness :
  keeps calls (app_recv cb) /\
  calls (state_after (cleartext_loop cb 5 cleartext_waiting))
    = [EvAppRecv (Some [4; 5]); EvAppRecv (Some [6])] /\
  (exists evs,
    delivery cb cleartext_waiting evs
      (state_after (cleartext_loop cb 5 cleartext_waiting)) /\
    calls (state_after (cleartext_loop cb 5 cleartext_waiting))
      = calls cleartext_waiting ++ evs) /\
  calls (state_after (cleartext_loop cb 5 handshake_record_waiting))
    = [EvAppRecv (Some [4; 5])] /\
  inbox (ssl_ (state_after (cleartext_loop cb 5 handshake_record_waiting))) = [[6]] /\
  (exists evs,
    delivery cb handshake_record_waiting evs
      (state_after (cleartext_loop cb 5 handshake_record_waiting)) /\
    calls (state_after (cleartext_loop cb 5 handshake_record_waiting))
      = calls handshake_record_waiting ++ evs).
Proof.
  split; [exact cb_app_recv_silent |]. split; [reflexivity |].
  split; [| split; [reflexivity | split; [reflexivity |]]].
  - destruct (proj1 (cleartext_loop_delivers_chunks cb) 5%nat cleartext_waiting
                (state_after (cleartext_loop cb 5 cleartext_waiting)) eq_refl)
      as (evs & Hd & Hc).
    exists evs. split; [exact Hd | exact (Hc cb_app_recv_silent)].
  - destruct (proj1 (cleartext_loop_delivers_chunks cb) 5%nat handshake_record_waiting
                (state_after (cleartext_loop cb 5 handshake_record_waiting)) eq_refl)
      as (evs & Hd & Hc).
    exists evs. split; [exact Hd | exact (Hc cb_app_recv_silent)].
Defined.

Lemma send_pending_acks_drains_witness :
  invalidated_ acks_pending = false /\
  send_pending_acks cb 5 acks_pending
    = Ok tt (state_after (send_pending_acks cb 5 acks_pending)) /\
  wire (derived (state_after (send_pending_acks cb 5 acks_pending)))
    = [mkPkt false None [3; 4] []] /\
  ra_empty (xmit_acks (state_after (send_pending_acks cb 5 acks_pending))) = true.
Proof.
  split; [reflexivity |]. split; [reflexivity |]. split; [reflexivity |].
  destruct (send_pending_acks_drains cb acks_pending
              (state_after (send_pending_acks cb 5 acks_pending)) 5 eq_refl eq_refl)
    as (H & _).
  exact H.
Defined.

Lemma flush_before_handshake_witness :
  DownKeeps cleartext_side cb /\
  ssl_started_ early_send = false /\
  wire (derived (state_after (flush cb 5 early_send)))
    = [mkPkt true (Some 0) [] [7; 8]] /\
  app_write_queue (state_after (flush cb 5 early_send)) = app_write_queue early_send /\
  ssl_ (state_after (flush cb 5 early_send)) = ssl_ early_send.
Proof.
  assert (Hk : DownKeeps cleartext_side cb)
    by (apply cb_down_keeps; intros; reflexivity).
  split; [exact Hk |]. split; [reflexivity |]. split; [reflexivity |].
  destruct (flush_before_handshake_holds_cleartext cb early_send 5 Hk eq_refl
              (state_after (flush cb 5 early_send)) eq_refl) as (Hq & Hs & _).
  split; [exact Hq | exact Hs].
Defined.

Lemma fatal_write_kills_object_witness :
  quiet_hook cb /\
  invalidated_ write_fails = false /\
  up_stack_reentry_level write_fails = 0 /\
  raw_write_queue write_fails = [] /\
  ssl_started_ write_fails = true /\
  exists s',
    flush cb 1 write_fails = Throw SslFailure s' /\
    flush cb 5 s' = Ok tt s' /\
    next_retransmit s' = Never.
Proof.
  split; [exact cb_quiet |]. repeat (split; [reflexivity |]).
  destruct (fatal_write_kills_object cb write_fails 0 [1; 2; 3] [] SslFailure
              (ssl_ write_fails) cb_quiet eq_refl eq_refl eq_refl eq_refl eq_refl eq_refl)
    as (s' & E & _ & Hn & Hops).
  exists s'. split; [exact E |]. split; [| exact Hn].
  exact (proj1 (Hops 5%nat empty_pkt [])).
Defined.

Lemma all_acked_none_ready : none_ready all_acked.
Proof.
  intros j Hj. cbn in Hj. assert (j = 0) by lia. subst j. reflexivity.
Qed.

Lemma retransmit_with_nothing_ready_witness :
  invalidated_ all_acked = false /\
  Time_ge (now all_acked) (next_retransmit_ all_acked) = true /\
  none_ready all_acked /\
  retransmit cb 5 all_acked = Ok tt (with_deadline all_acked) /\
  next_retransmit_ (with_deadline all_acked) = Never.
Proof.
  split; [reflexivity |]. split; [reflexivity |]. split; [exact all_acked_none_ready |].
  destruct (retransmit_with_nothing_ready cb all_acked 5 eq_refl eq_refl) as (E & _).
  - cbn. lia.
  - reflexivity.
  - cbn. lia.
  - exact all_acked_none_ready.
  - split; [exact E | reflexivity].
Defined.

End SimFacts.
